(** * Satori message elements

    A shallow embedding of [src/satori/element.py]: the element classes,
    their construction from the parser's [RawElement] nodes ([from_raw],
    [transform]), the resource helper [Resource.of] and the renderers
    ([__str__]).

    Python objects are modelled as a class tag together with the
    instance dictionary ([vars(self)]), an insertion-ordered mapping from
    attribute names to values; exceptions are modelled by an error monad. *)

From Stdlib Require Import ZArith String List Ascii Bool DecimalString Lia.
From Stdlib.Strings Require Import Byte.
Import ListNotations.
Open Scope string_scope.
Set Warnings "-register-all".

(** ** Python values *)

(** Scalar values: what an attribute of a [RawElement] may hold (string,
    number, boolean, null), plus the [...] placeholder accepted in the
    [extra] mapping of resources.  A float is carried by its [str] form. *)
Inductive value : Type :=
| VNone
| VBool (b : bool)
| VInt (z : Z)
| VFloat (repr : string)
| VStr (s : string)
| VEllipsis.

(** [str(v)] *)
Definition py_str (v : value) : string :=
  match v with
  | VNone => "None"
  | VBool true => "True"
  | VBool false => "False"
  | VInt z => NilZero.string_of_int (Z.to_int z)
  | VFloat r => r
  | VStr s => s
  | VEllipsis => "Ellipsis"
  end.

(** [bool(v)] *)
Definition truthy (v : value) : bool :=
  match v with
  | VNone => false
  | VBool b => b
  | VInt z => negb (z =? 0)%Z
  | VFloat r => negb ((r =? "0.0") || (r =? "-0.0"))
  | VStr s => negb (s =? "")
  | VEllipsis => true
  end.

(** ** Exceptions and the error monad *)

Inductive exn : Type :=
| ValueError (msg : string)
| KeyError (key : string)
| IndexError
| TypeError
| AttributeError
| Unmodelled.

Inductive result (A : Type) : Type :=
| Ok (a : A)
| Raise (e : exn).
Arguments Ok {A} a.
Arguments Raise {A} e.

Definition bind {A B} (m : result A) (k : A -> result B) : result B :=
  match m with
  | Ok a => k a
  | Raise e => Raise e
  end.

Notation "x <- m ;; k" := (bind m (fun x => k))
  (at level 61, m at next level, right associativity).

(** A comprehension or loop whose body may raise: the first exception, in
    list order, aborts the whole. *)
Fixpoint mapM {A B} (f : A -> result B) (l : list A) : result (list B) :=
  match l with
  | [] => Ok []
  | x :: xs => y <- f x ;; ys <- mapM f xs ;; Ok (y :: ys)
  end.

(** A loop that updates a value and whose body may raise. *)
Fixpoint foldM {A B} (f : B -> A -> result B) (l : list A) (b : B) : result B :=
  match l with
  | [] => Ok b
  | a :: l' => b' <- f b a ;; foldM f l' b'
  end.

(** ** Dictionaries

    A Python [dict] keeps insertion order; assigning to a key that is
    present replaces its value in place, assigning to a new key appends. *)
Definition dict (V : Type) : Type := list (string * V).

Fixpoint dict_get {V} (d : dict V) (k : string) : option V :=
  match d with
  | [] => None
  | (k', v) :: d' => if k' =? k then Some v else dict_get d' k
  end.

Fixpoint dict_set {V} (d : dict V) (k : string) (v : V) : dict V :=
  match d with
  | [] => [(k, v)]
  | (k', v') :: d' => if k' =? k then (k', v) :: d' else (k', v') :: dict_set d' k v
  end.

Definition dict_mem {V} (d : dict V) (k : string) : bool :=
  match dict_get d k with Some _ => true | None => false end.

(** [d[k]] *)
Definition getitem {V} (d : dict V) (k : string) : result V :=
  match dict_get d k with
  | Some v => Ok v
  | None => Raise (KeyError k)
  end.

(** [k in names] for a tuple or set of strings *)
Definition str_in (k : string) (names : list string) : bool :=
  existsb (String.eqb k) names.

(** [k.startswith("_")] *)
Definition internal_key (k : string) : bool := prefix "_" k.

(** [sep.join(parts)] *)
Definition join (sep : string) (parts : list string) : string :=
  String.concat sep parts.

(** ** Classes and objects *)

Inductive cls : Type :=
| Element_ | Text | At | Sharp | Link
| Resource | Image | Audio | Video | File
| Style | Bold | Italic | Underline | Strikethrough | Spoiler | Code
| Superscript | Subscript | Br | Paragraph
| Message | Quote | Author | Custom | Raw.

(** [cls.__name__] *)
Definition cls_name (c : cls) : string :=
  match c with
  | Element_ => "Element" | Text => "Text" | At => "At" | Sharp => "Sharp"
  | Link => "Link" | Resource => "Resource" | Image => "Image"
  | Audio => "Audio" | Video => "Video" | File => "File"
  | Style => "Style" | Bold => "Bold" | Italic => "Italic"
  | Underline => "Underline" | Strikethrough => "Strikethrough"
  | Spoiler => "Spoiler" | Code => "Code" | Superscript => "Superscript"
  | Subscript => "Subscript" | Br => "Br" | Paragraph => "Paragraph"
  | Message => "Message" | Quote => "Quote" | Author => "Author"
  | Custom => "Custom" | Raw => "Raw"
  end.

(** [s.lower()] on ASCII letters *)
Definition lower_ascii (a : ascii) : ascii :=
  let n := nat_of_ascii a in
  if (65 <=? n)%nat && (n <=? 90)%nat then ascii_of_nat (n + 32) else a.

Fixpoint lower (s : string) : string :=
  match s with
  | EmptyString => EmptyString
  | String a s' => String (lower_ascii a) (lower s')
  end.

(** The value of an instance attribute: a scalar, a list of elements
    ([Message.content], [Custom.children]) or a mapping of scalars
    ([Custom.attrs]). *)
Inductive fval (E : Type) : Type :=
| Val (v : value)
| Elems (l : list E)
| Attrs (a : dict value).
Arguments Val {E} v.
Arguments Elems {E} l.
Arguments Attrs {E} a.

(** An instance: its class and its [__dict__]. *)
Inductive Element : Type :=
| Obj (c : cls) (d : dict (fval Element)).

Definition class_of (e : Element) : cls := let 'Obj c _ := e in c.
Definition vars (e : Element) : dict (fval Element) := let 'Obj _ d := e in d.

(** [setattr(o, k, v)].  Three names are data descriptors of every
    instance and are not stored in the instance dictionary: [__class__]
    accepts only a class, which no value here is; [__dict__] accepts
    only a mapping, which then becomes the instance dictionary;
    [__weakref__] cannot be written.  Every other name, a method name
    or the empty name included, is an entry of the instance dictionary. *)
Definition setattr (o : Element) (k : string) (v : fval Element)
  : result Element :=
  let 'Obj c d := o in
  if k =? "__class__" then Raise TypeError
  else if k =? "__dict__" then
    match v with
    | Attrs a => Ok (Obj c (map (fun '(k', v') => (k', Val v')) a))
    | _ => Raise TypeError
    end
  else if k =? "__weakref__" then Raise AttributeError
  else Ok (Obj c (dict_set d k v)).

(** [getattr(o, k)]; every attribute read by the code is a dataclass
    field, so it is absent only from an object built outside the
    constructors. *)
Definition getattr (o : Element) (k : string) : result (fval Element) :=
  match dict_get (vars o) k with
  | Some v => Ok v
  | None => Raise AttributeError
  end.

(** Truth value of an attribute. *)
Definition ftruthy {E} (v : fval E) : bool :=
  match v with
  | Val v => truthy v
  | Elems l => match l with [] => false | _ => true end
  | Attrs a => match a with [] => false | _ => true end
  end.

(** The node type produced by the parser: [RawElement(type, attrs, children)]. *)
Inductive RawElement : Type :=
| mkRaw (type : string) (attrs : dict value) (children : list RawElement).

Definition raw_type (r : RawElement) : string := let 'mkRaw t _ _ := r in t.
Definition raw_attrs (r : RawElement) : dict value := let 'mkRaw _ a _ := r in a.
Definition raw_children (r : RawElement) : list RawElement :=
  let 'mkRaw _ _ c := r in c.

(** ** Dataclass fields and construction *)

(** [fields(cls)]: the dataclass fields in declaration order (base class
    first), each with its default; [None] marks a field without default.
    [InitVar] pseudo-fields are not fields. *)
Definition fields (c : cls) : list (string * option (fval Element)) :=
  let none := Some (Val VNone) in
  match c with
  | Element_ => []
  | Text | Style | Bold | Italic | Underline | Strikethrough | Spoiler | Code
  | Superscript | Subscript | Br | Paragraph => [("text", None)]
  | At => [("id", none); ("name", none); ("role", none); ("type", none)]
  | Sharp => [("id", None); ("name", none)]
  | Link => [("url", None); ("display", none)]
  | Resource | Audio | Video | File =>
      [("src", None); ("cache", none); ("timeout", none)]
  | Image =>
      [("src", None); ("cache", none); ("timeout", none);
       ("width", none); ("height", none)]
  | Message | Quote => [("id", none); ("forward", none); ("content", none)]
  | Author => [("id", None); ("nickname", none); ("avatar", none)]
  | Custom => [("type", None); ("attrs", Some (Attrs [])); ("children", none)]
  | Raw => [("content", None)]
  end.

Definition field_names (c : cls) : list string := map fst (fields c).

(** The [InitVar] parameters of [__init__] (passed on to [__post_init__]). *)
Definition initvars (c : cls) : list string :=
  match c with
  | Resource | Image | Audio | Video | File => ["extra"]
  | _ => []
  end.

Fixpoint init_fields (fs : list (string * option (fval Element)))
    (kw : dict (fval Element)) : result (dict (fval Element)) :=
  match fs with
  | [] => Ok []
  | (f, dflt) :: fs' =>
      v <- match dict_get kw f, dflt with
           | Some v, _ => Ok v
           | None, Some v => Ok v
           | None, None => Raise TypeError
           end ;;
      rest <- init_fields fs' kw ;;
      Ok ((f, v) :: rest)
  end.

(** [Resource.__post_init__] *)
Definition post_init (o : Element) (extra : option (fval Element))
  : result Element :=
  match extra with
  | None => Ok o
  | Some (Attrs ex) =>
      foldM
        (fun self '(k, v) =>
           setattr self k
             (Val (match v with VEllipsis => VBool true | _ => v end)))
        ex o
  | Some x => if ftruthy x then Raise AttributeError else Ok o
  end.

(** Calling [cls] with keyword arguments [kw]: the generated [__init__]
    stores each field (its keyword argument, else its default) in
    declaration order, then runs [__post_init__] where the class has
    one.  A missing or an unexpected argument is a [TypeError]. *)
Definition construct (c : cls) (kw : dict (fval Element)) : result Element :=
  if forallb (fun '(k, _) => str_in k (field_names c ++ initvars c)%list) kw
  then
    d <- init_fields (fields c) kw ;;
    match initvars c with
    | [] => Ok (Obj c d)
    | _ => post_init (Obj c d) (dict_get kw "extra")
    end
  else Raise TypeError.

(** ** Factory methods of [At] *)

(** [At.at_role(role, name=None)] *)
Definition At_at_role (role : string) (name : option string) : result Element :=
  construct At
    [("role", Val (VStr role));
     ("name", Val (match name with Some n => VStr n | None => VNone end))].

(** [At.all(here=False)] *)
Definition At_all (here : bool) : result Element :=
  construct At [("type", Val (VStr (if here then "here" else "all")))].

(** ** Deserialization: [from_raw] *)

Definition as_kwargs (attrs : dict value) : dict (fval Element) :=
  map (fun '(k, v) => (k, Val v)) attrs.

(** [Element.from_raw], inherited by every class that does not override
    it: attributes named like a field go to the constructor, the others
    are set on the instance afterwards. *)
Definition Element_from_raw (c : cls) (raw : RawElement) : result Element :=
  let _fields := field_names c in
  let attrs := filter (fun '(k, _) => str_in k _fields) (raw_attrs raw) in
  result <- construct c (as_kwargs attrs) ;;
  foldM
    (fun result '(k, v) =>
       if negb (str_in k _fields) then setattr result k (Val v) else Ok result)
    (raw_attrs raw) result.

(** [Link.from_raw] *)
Definition Link_from_raw (raw : RawElement) : result Element :=
  href <- getitem (raw_attrs raw) "href" ;;
  display <- match raw_children raw with
             | child :: _ => getitem (raw_attrs child) "text"
             | [] => Ok VNone
             end ;;
  res <- construct Link [("url", Val href); ("display", Val display)] ;;
  foldM
    (fun res '(k, v) =>
       if negb (k =? "href") then setattr res k (Val v) else Ok res)
    (raw_attrs raw) res.

(** [Style.from_raw], called on the style class [c] *)
Definition Style_from_raw (c : cls) (raw : RawElement) : result Element :=
  match raw_children raw with
  | [] => Raise IndexError
  | child :: _ =>
      text <- getitem (raw_attrs child) "text" ;;
      res <- construct c [("text", Val text)] ;;
      foldM (fun res '(k, v) => setattr res k (Val v)) (raw_attrs raw) res
  end.

(** ** [transform] *)

(** The line feed, as a string. *)
Definition newline : string := String (ascii_of_nat 10) EmptyString.

Definition ELEMENT_TYPE_MAP : dict cls :=
  [("text", Text); ("at", At); ("sharp", Sharp); ("img", Image);
   ("audio", Audio); ("video", Video); ("file", File); ("author", Author)].

Definition STYLE_TYPE_MAP : dict cls :=
  [("b", Bold); ("strong", Bold); ("i", Italic); ("em", Italic);
   ("u", Underline); ("ins", Underline); ("s", Strikethrough);
   ("del", Strikethrough); ("spl", Spoiler); ("code", Code);
   ("sup", Superscript); ("sub", Subscript); ("p", Paragraph)].

(** The [message] and [quote] branches: [from_raw], then the transformed
    children are assigned to [content] when the node has children. *)
Definition container (c : cls) (elem : RawElement)
    (kids : result (list Element)) : result Element :=
  res <- Element_from_raw c elem ;;
  match raw_children elem with
  | [] => Ok res
  | _ :: _ => content <- kids ;; setattr res "content" (Elems content)
  end.

(** The body of the loop of [transform], for one node; the inner
    fixpoint is the recursive call [transform(elem.children)]. *)
Fixpoint transform_elem (elem : RawElement) : result Element :=
  let transform_children :=
    (fix go (l : list RawElement) : result (list Element) :=
       match l with
       | [] => Ok []
       | x :: xs => y <- transform_elem x ;; ys <- go xs ;; Ok (y :: ys)
       end) (raw_children elem) in
  match dict_get ELEMENT_TYPE_MAP (raw_type elem) with
  | Some seg_cls => Element_from_raw seg_cls elem
  | None =>
      if str_in (raw_type elem) ["a"; "link"] then Link_from_raw elem
      else
        match dict_get STYLE_TYPE_MAP (raw_type elem) with
        | Some seg_cls => Style_from_raw seg_cls elem
        | None =>
            if str_in (raw_type elem) ["br"; "newline"] then
              construct Br [("text", Val (VStr newline))]
            else if raw_type elem =? "message" then
              container Message elem transform_children
            else if raw_type elem =? "quote" then
              container Quote elem transform_children
            else
              kids <- transform_children ;;
              construct Custom
                [("type", Val (VStr (raw_type elem)));
                 ("attrs", Attrs (raw_attrs elem));
                 ("children", Elems kids)]
        end
  end.

(** [transform(elements)] *)
Definition transform (elements : list RawElement) : result (list Element) :=
  mapM transform_elem elements.

(** ** [Resource.of] *)

(** The classes on which the class method [of] can be called. *)
Inductive resource_cls : Type := RResource | RImage | RAudio | RVideo | RFile.

Definition cls_of_resource (rc : resource_cls) : cls :=
  match rc with
  | RResource => Resource | RImage => Image | RAudio => Audio
  | RVideo => Video | RFile => File
  end.

(** [path: Optional[Union[str, Path]]] *)
Inductive pathlike : Type :=
| PathStr (s : string)
| PathObj (s : string).

(** [raw: Optional[Union[bytes, BytesIO]]] *)
Inductive rawdata : Type :=
| RawBytes (b : list byte)
| RawBytesIO (b : list byte).

Definition path_truthy (p : option pathlike) : bool :=
  match p with
  | None => false
  | Some (PathStr s) => negb (s =? "")
  | Some (PathObj _) => true
  end.

Definition raw_truthy (r : option rawdata) : bool :=
  match r with
  | None => false
  | Some (RawBytes b) => match b with [] => false | _ => true end
  | Some (RawBytesIO _) => true
  end.

Definition str_truthy (s : option string) : bool :=
  match s with
  | None => false
  | Some s => negb (s =? "")
  end.

Definition path_text (p : pathlike) : string :=
  match p with PathStr s | PathObj s => s end.

Definition raw_value (r : rawdata) : list byte :=
  match r with RawBytes b | RawBytesIO b => b end.

(** [base64.b64encode(bs).decode()]: the standard alphabet, with padding. *)
Definition b64_alphabet : string :=
  "ABCDEFGHIJKLMNOPQRSTUVWXYZabcdefghijklmnopqrstuvwxyz0123456789+/".

Definition b64_char (n : N) : string :=
  match get (N.to_nat n) b64_alphabet with
  | Some c => String c EmptyString
  | None => "="
  end.

Fixpoint b64encode (bs : list byte) : string :=
  match bs with
  | [] => EmptyString
  | [a] =>
      let a := Byte.to_N a in
      b64_char (a / 4) ++ b64_char (a mod 4 * 16) ++ "=="
  | [a; b] =>
      let a := Byte.to_N a in
      let b := Byte.to_N b in
      b64_char (a / 4) ++ b64_char (a mod 4 * 16 + b / 16)
        ++ b64_char (b mod 16 * 4) ++ "="
  | a :: b :: c :: rest =>
      let a := Byte.to_N a in
      let b := Byte.to_N b in
      let c := Byte.to_N c in
      b64_char (a / 4) ++ b64_char (a mod 4 * 16 + b / 16)
        ++ b64_char (b mod 16 * 4 + c / 64) ++ b64_char (c mod 64)
        ++ b64encode rest
  end.

(** [str(cls)] *)
Definition cls_str (c : cls) : string :=
  "<class 'satori.element." ++ cls_name c ++ "'>".

Definition opt_value {A} (f : A -> value) (o : option A) : value :=
  match o with Some a => f a | None => VNone end.

(** The double-quote character, as a string. *)
Definition dq : string := String (ascii_of_nat 34) EmptyString.

(** What the method [get_type] of the class returns where it does not
    read the instance: the lower-cased class name, [img] for [Image].
    ([Custom.get_type] returns the [type] attribute, see
    [call_get_type].) *)
Definition get_type (c : cls) : string :=
  match c with
  | Image => "img"
  | _ => lower (cls_name c)
  end.

(** The call [self.get_type()], as the text that an f-string writes for
    it.  The name is looked up in the instance dictionary first: an
    attribute named [get_type] hides the method and, being no function,
    cannot be called.  Otherwise the method of the class runs;
    the one of [Custom] returns the [type] attribute. *)
Definition call_get_type {E} (c : cls) (self : dict (fval E)) : result string :=
  match dict_get self "get_type" with
  | Some _ => Raise TypeError
  | None =>
      match c with
      | Custom =>
          match dict_get self "type" with
          | Some (Val v) => Ok (py_str v)
          | Some _ => Raise Unmodelled
          | None => Raise AttributeError
          end
      | _ => Ok (get_type c)
      end
  end.

Section Satori.

(** [pathlib.Path(p).as_uri()], which raises on a relative path. *)
Variable as_uri : string -> result string.

(** The escaping primitive [escape] of the parser module, on strings. *)
Variable escape : string -> string.

(** [Resource.of], called on the class [rc]. *)
Definition Resource_of (rc : resource_cls)
    (url : option string) (path : option pathlike)
    (raw : option rawdata) (mime : option string)
    (extra : option (dict value))
    (cache : option bool) (timeout : option string) : result Element :=
  let data : dict (fval Element) :=
    [("extra", match extra with Some e => Attrs e | None => Val VNone end)] in
  data <-
    match url with
    | Some url => Ok [("src", Val (VStr url))]
    | None =>
        if path_truthy path then
          uri <- as_uri (match path with
                         | Some p => path_text p
                         | None => EmptyString
                         end) ;;
          Ok [("src", Val (VStr uri))]
        else if raw_truthy raw && str_truthy mime then
          let bd := match raw with Some r => raw_value r | None => [] end in
          let mime := match mime with Some m => m | None => EmptyString end in
          Ok [("src", Val (VStr ("data:" ++ mime ++ ";base64," ++ b64encode bd)))]
        else
          Raise (ValueError (cls_str (cls_of_resource rc)
                               ++ " need at least one of url, path and raw"))
    end ;;
  let data := match cache with
              | Some b => dict_set data "cache" (Val (VBool b))
              | None => data
              end in
  let data := match timeout with
              | Some t => dict_set data "timeout" (Val (VStr t))
              | None => data
              end in
  construct (cls_of_resource rc) data.

(** *** Rendering: [__str__] *)

(** The attribute formatter [_attr] of [Element.__str__] and of
    [Custom.__str__] (the two copies are identical). *)
Definition _attr (key : string) (value : value) : string :=
  match value with
  | VBool true => key
  | VBool false => "no-" ++ key
  | VInt _ | VFloat _ => key ++ "=" ++ py_str value
  | _ => key ++ "=" ++ dq ++ escape (py_str value) ++ dq
  end.

(** While an object is rendered, the elements held by its attributes
    are seen through their own renderings. *)
Definition view : Type := dict (fval (result string)).

Definition view_get (self : view) (k : string) : result (fval (result string)) :=
  match dict_get self k with
  | Some v => Ok v
  | None => Raise AttributeError
  end.

(** [escape(x)] on an attribute; the primitive calls a method of
    strings on its argument, which any other argument lacks. *)
Definition escape_of (x : fval (result string)) : result string :=
  match x with
  | Val (VStr s) => Ok (escape s)
  | _ => Raise AttributeError
  end.

(** One item of the comprehension of [Element.__str__].  The [str] of
    a list or of a mapping is Python's [repr], which is not part of
    this model. *)
Definition attr_item (k : string) (x : fval (result string)) : result string :=
  match x with
  | Val v => Ok (_attr k v)
  | _ => Raise Unmodelled
  end.

Definition public {V} (d : dict V) : dict V :=
  filter (fun '(k, _) => negb (internal_key k)) d.

(** [Element.__str__] *)
Definition Element_str (c : cls) (self : view) : result string :=
  attrs <- mapM (fun '(k, v) => attr_item k v) (public self) ;;
  type <- call_get_type c self ;;
  Ok ("<" ++ type ++ " " ++ join " " attrs ++ " />").

(** [Text.__str__], inherited by [Style] *)
Definition Text_str (self : view) : result string :=
  text <- view_get self "text" ;;
  escape_of text.

(** The renderers of the style classes: the escaped text between tags. *)
Definition Style_str (tag : string) (self : view) : result string :=
  text <- view_get self "text" ;;
  t <- escape_of text ;;
  Ok ("<" ++ tag ++ ">" ++ t ++ "</" ++ tag ++ ">").

(** [Link.__str__] *)
Definition Link_str (self : view) : result string :=
  display <- view_get self "display" ;;
  url <- view_get self "url" ;;
  if negb (ftruthy display) then
    u <- escape_of url ;;
    Ok ("<a href=" ++ dq ++ u ++ dq ++ "/>")
  else
    u <- escape_of url ;;
    t <- escape_of display ;;
    Ok ("<a href=" ++ dq ++ u ++ dq ++ ">" ++ t ++ "</a>").

(** The joined renderings of the elements of a container attribute.
    Iterating a string yields its characters and iterating a mapping
    its keys; other scalars are not iterable. *)
Definition join_strs (x : fval (result string)) : result string :=
  match x with
  | Elems l => parts <- mapM (fun r => r) l ;; Ok (join EmptyString parts)
  | Val (VStr s) => Ok s
  | Attrs a => Ok (join EmptyString (map fst a))
  | Val _ => Raise TypeError
  end.

(** [Message.__str__], inherited by [Quote] *)
Definition Message_str (c : cls) (self : view) : result string :=
  id <- view_get self "id" ;;
  attr <- (if ftruthy id
           then i <- escape_of id ;; Ok ["id=" ++ dq ++ i ++ dq]
           else Ok []) ;;
  forward <- view_get self "forward" ;;
  let attr := (attr ++ if ftruthy forward then ["forward"] else [])%list in
  _type <- call_get_type c self ;;
  content <- view_get self "content" ;;
  if negb (ftruthy content) then
    Ok ("<" ++ _type ++ " " ++ join " " attr ++ " />")
  else
    body <- join_strs content ;;
    Ok ("<" ++ _type ++ " " ++ join " " attr ++ ">" ++ body
          ++ "</" ++ _type ++ ">").

(** [Custom.__str__] *)
Definition Custom_str (self : view) : result string :=
  a <- view_get self "attrs" ;;
  attrs <- match a with
           | Attrs a => Ok (join " " (map (fun '(k, v) => _attr k v) (public a)))
           | _ => Raise AttributeError
           end ;;
  children <- view_get self "children" ;;
  type <- call_get_type Custom self ;;
  if ftruthy children then
    body <- join_strs children ;;
    Ok ("<" ++ type ++ " " ++ attrs ++ ">" ++ body ++ "</" ++ type ++ ">")
  else
    Ok ("<" ++ type ++ " " ++ attrs ++ " />").

(** [Raw.__str__] *)
Definition Raw_str (self : view) : result string :=
  content <- view_get self "content" ;;
  match content with
  | Val (VStr s) => Ok s
  | _ => Raise TypeError
  end.

(** Method resolution: the [__str__] of each class. *)
Definition str_method (c : cls) : view -> result string :=
  match c with
  | Text | Style => Text_str
  | Bold => Style_str "b"
  | Italic => Style_str "i"
  | Underline => Style_str "u"
  | Strikethrough => Style_str "s"
  | Spoiler => Style_str "spl"
  | Code => Style_str "code"
  | Superscript => Style_str "sup"
  | Subscript => Style_str "sub"
  | Paragraph => Style_str "p"
  | Br => fun _ => Ok "<br/>"
  | Link => Link_str
  | Message | Quote => Message_str c
  | Custom => Custom_str
  | Raw => Raw_str
  | Element_ | At | Sharp | Resource | Image | Audio | Video | File
  | Author => Element_str c
  end.

(** The instance dictionary [d] as its renderer sees it, given the
    renderer [render] of the elements it holds. *)
Definition to_view (render : Element -> result string)
    (d : dict (fval Element)) : view :=
  map (fun '(k, x) =>
         (k, match x with
             | Val v => Val v
             | Elems l => Elems (map render l)
             | Attrs a => Attrs a
             end)) d.

(** [str(e)] *)
Fixpoint str (e : Element) : result string :=
  match e with
  | Obj c d => str_method c (to_view str d)
  end.

End Satori.

(** ** Instances of the external primitives, used to run the model *)

(** Modelled from the spec: the escaping primitive [escape] of the parser
    module, which is not among the sources; the spec has it escape the
    reserved characters of the markup, at least the ampersand, the angle
    brackets and the double quote. *)
Fixpoint escape_markup (s : string) : string :=
  match s with
  | EmptyString => EmptyString
  | String a s' =>
      (if Ascii.eqb a "&" then "&amp;"
       else if Ascii.eqb a "<" then "&lt;"
       else if Ascii.eqb a ">" then "&gt;"
       else if Ascii.eqb a (ascii_of_nat 34) then "&quot;"
       else String a EmptyString) ++ escape_markup s'
  end.

(** [Path(p).as_uri()] on normalised POSIX paths made of unreserved
    characters (no repeated slash, nothing to percent-encode): an
    absolute path gets the [file] scheme, a relative one is refused. *)
Definition as_uri_posix (p : string) : result string :=
  if prefix "/" p then Ok ("file://" ++ p)
  else Raise (ValueError "relative path can't be expressed as a file URI").

(** ** Expected shapes, used to state the properties *)

(** The instance that a resource class builds from [src], [cache] and
    [timeout] alone: the fields in declaration order, the unset ones
    [None]. *)
Definition resource_obj (rc : resource_cls) (src : string)
    (cache : option bool) (timeout : option string) : Element :=
  Obj (cls_of_resource rc)
    ([("src", Val (VStr src));
      ("cache", Val (opt_value VBool cache));
      ("timeout", Val (opt_value VStr timeout))]
     ++ match rc with
        | RImage => [("width", Val VNone); ("height", Val VNone)]
        | _ => []
        end)%list.

(** The instance [Message(id, forward, content)], or [Quote(...)]. *)
Definition message_obj (c : cls) (id : option string) (forward : option bool)
    (content : option (list Element)) : Element :=
  Obj c
    [("id", Val (opt_value VStr id));
     ("forward", Val (opt_value VBool forward));
     ("content", match content with Some l => Elems l | None => Val VNone end)].

(** The attribute text of a rendered [Message]: the quoted, escaped [id]
    when there is a non-empty one, then [forward] when it is true. *)
Definition message_attrs (escape : string -> string)
    (id : option string) (forward : option bool) : string :=
  join " "
    (app
       (match id with
        | Some i => if i =? "" then [] else ["id=" ++ dq ++ escape i ++ dq]
        | None => []
        end)
       (match forward with Some true => ["forward"] | _ => [] end)).

(** The classes rendered by [Element.__str__], which they do not override. *)
Definition default_rendered (c : cls) : bool :=
  match c with
  | Element_ | At | Sharp | Resource | Image | Audio | Video | File
  | Author => true
  | _ => false
  end.

(** Every tag named by a branch of [transform] before the fallback. *)
Definition known_tag (t : string) : bool :=
  dict_mem ELEMENT_TYPE_MAP t || str_in t ["a"; "link"]
  || dict_mem STYLE_TYPE_MAP t
  || str_in t ["br"; "newline"; "message"; "quote"].

(** The exception that [setattr] raises when asked to store a scalar
    under the name [k], if any. *)
Definition setattr_error (k : string) : option exn :=
  if k =? "__class__" then Some TypeError
  else if k =? "__dict__" then Some TypeError
  else if k =? "__weakref__" then Some AttributeError
  else None.

(** The exception that ends the attribute pass of a [from_raw]: that of
    the first attribute, in node order, whose key passes [keep] and
    cannot be assigned. *)
Fixpoint attr_pass_error (keep : string -> bool) (attrs : dict value)
  : option exn :=
  match attrs with
  | [] => None
  | (k, _) :: attrs' =>
      match (if keep k then setattr_error k else None) with
      | Some e => Some e
      | None => attr_pass_error keep attrs'
      end
  end.

(** The instance dictionary after the attribute pass of a [from_raw]:
    each attribute of the node whose key passes [keep] is assigned, in
    order, over the dictionary [d] that the constructor built. *)
Definition assign (keep : string -> bool) (attrs : dict value)
    (d : dict (fval Element)) : dict (fval Element) :=
  fold_left (fun d '(k, v) => if keep k then dict_set d k (Val v) else d)
    attrs d.

(** The class of an element, and of every element held by its
    attributes at any depth, passes [p]. *)
Fixpoint tree_classes (p : cls -> bool) (e : Element) : bool :=
  match e with
  | Obj c d =>
      p c
      && forallb (fun '(_, x) =>
                    match x with
                    | Elems l => forallb (tree_classes p) l
                    | _ => true
                    end) d
  end.

(** The elements held by the attributes of a dictionary pass
    [tree_classes]. *)
Definition held_ok (p : cls -> bool) (d : dict (fval Element)) : bool :=
  forallb (fun '(_, x) =>
             match x with
             | Elems l => forallb (tree_classes p) l
             | _ => true
             end) d.

(** The classes that are never instantiated from a node: the abstract
    bases and [Raw]. *)
Definition from_node (c : cls) : bool :=
  match c with
  | Element_ | Resource | Style | Raw => false
  | _ => true
  end.





(** The value that [__post_init__] stores for an entry of [extra]. *)
Definition flag (v : value) : value :=
  match v with VEllipsis => VBool true | _ => v end.

(** * Properties *)

(** ** Strings *)

Lemma append_assoc (a b c : string) : (a ++ b) ++ c = a ++ (b ++ c).
Proof.
  induction a as [| x a IH]; simpl; [reflexivity | rewrite IH; reflexivity].
Qed.

(** Strings built around the escaped parts are compared once their
    concatenations are nested to the right. *)
Ltac str_norm :=
  cbn; repeat (progress (rewrite ?append_assoc; cbn [append])).

(** ** The error monad *)

Lemma bind_Ok {A B} (m : result A) (k : A -> result B) (b : B) :
  bind m k = Ok b -> exists a, m = Ok a /\ k a = Ok b.
Proof.
  destruct m as [a | e]; simpl; intros H.
  - exists a; split; [reflexivity | exact H].
  - discriminate H.
Qed.

Lemma mapM_length {A B} (f : A -> result B) (l : list A) (r : list B) :
  mapM f l = Ok r -> length r = length l.
Proof.
  revert r; induction l as [| x xs IH]; simpl; intros r H.
  - injection H as <-; reflexivity.
  - apply bind_Ok in H as (y & _ & H).
    apply bind_Ok in H as (ys & Hys & H).
    injection H as <-; simpl; f_equal; apply IH; exact Hys.
Qed.

Lemma mapM_Forall2 {A B} (f : A -> result B) (l : list A) (r : list B) :
  mapM f l = Ok r -> Forall2 (fun x y => f x = Ok y) l r.
Proof.
  revert r; induction l as [| x xs IH]; simpl; intros r H.
  - injection H as <-; constructor.
  - apply bind_Ok in H as (y & Hy & H).
    apply bind_Ok in H as (ys & Hys & H).
    injection H as <-; constructor; [exact Hy | apply IH; exact Hys].
Qed.

Lemma mapM_singleton {A B} (f : A -> result B) (x : A) (y : B) :
  mapM f [x] = Ok [y] <-> f x = Ok y.
Proof.
  simpl; split; intros H.
  - destruct (f x) as [b | e]; simpl in H; [| discriminate H].
    injection H as ->; reflexivity.
  - rewrite H; reflexivity.
Qed.

(** ** Assigning attributes *)

Lemma setattr_Val c d k (v : value) :
  setattr (Obj c d) k (Val v)
  = match setattr_error k with
    | Some e => Raise e
    | None => Ok (Obj c (dict_set d k (Val v)))
    end.
Proof.
  unfold setattr, setattr_error.
  destruct (k =? "__class__"); [reflexivity |].
  destruct (k =? "__dict__"); [reflexivity |].
  destruct (k =? "__weakref__"); reflexivity.
Qed.

Lemma setattr_plain c d k x :
  setattr_error k = None -> setattr (Obj c d) k x = Ok (Obj c (dict_set d k x)).
Proof.
  unfold setattr, setattr_error.
  destruct (k =? "__class__"); [discriminate |].
  destruct (k =? "__dict__"); [discriminate |].
  destruct (k =? "__weakref__"); [discriminate | reflexivity].
Qed.

(** The attribute pass of a [from_raw]: it raises at the first kept
    attribute whose name cannot be assigned, and otherwise assigns the
    kept attributes in order. *)
Lemma attr_pass (keep : string -> bool) (attrs : dict value) c d :
  foldM (fun res '(k, v) => if keep k then setattr res k (Val v) else Ok res)
    attrs (Obj c d)
  = match attr_pass_error keep attrs with
    | Some e => Raise e
    | None => Ok (Obj c (assign keep attrs d))
    end.
Proof.
  unfold assign; revert d; induction attrs as [| [k v] l IH];
    cbn [foldM attr_pass_error fold_left]; intros d.
  - reflexivity.
  - destruct (keep k); cbn [bind]; [| apply IH].
    rewrite setattr_Val; destruct (setattr_error k); cbn [bind];
      [reflexivity | apply IH].
Qed.

Lemma attr_pass_error_None keep (attrs : dict value) :
  attr_pass_error keep attrs = None <->
  forall k v, In (k, v) attrs -> keep k = true -> setattr_error k = None.
Proof.
  induction attrs as [| [k v] l IH]; simpl.
  - split; [intros _ k v [] | reflexivity].
  - destruct (keep k) eqn:Hk.
    + destruct (setattr_error k) as [e |] eqn:He.
      * split; [discriminate |].
        intros H; specialize (H k v (or_introl eq_refl) Hk); congruence.
      * rewrite IH; split.
        -- intros H k' v' [[= <- <-] | Hin] Hk'; [exact He | apply (H k' v' Hin Hk')].
        -- intros H k' v' Hin; apply (H k' v'); right; exact Hin.
    + rewrite IH; split.
      * intros H k' v' [[= <- <-] | Hin] Hk'; [congruence | apply (H k' v' Hin Hk')].
      * intros H k' v' Hin; apply (H k' v'); right; exact Hin.
Qed.

(** ** Classes are kept by attribute assignment and fixed by construction *)

Lemma setattr_class o k v o' :
  setattr o k v = Ok o' -> class_of o' = class_of o.
Proof.
  destruct o as [c d]; unfold setattr.
  destruct (k =? "__class__"); [discriminate |].
  destruct (k =? "__dict__").
  { destruct v; try discriminate; intros [= <-]; reflexivity. }
  destruct (k =? "__weakref__"); [discriminate |].
  intros [= <-]; reflexivity.
Qed.

Lemma foldM_inv {A B} (P : B -> Prop) (step : B -> A -> result B) (l : list A) :
  (forall b a b', P b -> step b a = Ok b' -> P b') ->
  forall b b', P b -> foldM step l b = Ok b' -> P b'.
Proof.
  intros Hstep; induction l as [| a l IH]; simpl; intros b b' Hb H.
  - injection H as <-; exact Hb.
  - apply bind_Ok in H as (b1 & H1 & H).
    apply (IH b1 b'); [apply (Hstep b a b1 Hb H1) | exact H].
Qed.

Lemma post_init_class o extra o' :
  post_init o extra = Ok o' -> class_of o' = class_of o.
Proof.
  unfold post_init; intros H.
  destruct extra as [[v | l | ex] |].
  - destruct (ftruthy _); [discriminate H | injection H as <-; reflexivity].
  - destruct (ftruthy _); [discriminate H | injection H as <-; reflexivity].
  - apply (foldM_inv (fun x => class_of x = class_of o)) in H;
      [exact H | | reflexivity].
    intros b [k v] b' Hb Hs; apply setattr_class in Hs; congruence.
  - injection H as <-; reflexivity.
Qed.

Lemma construct_class c kw o : construct c kw = Ok o -> class_of o = c.
Proof.
  unfold construct; intros H.
  destruct (forallb _ kw); [| discriminate H].
  apply bind_Ok in H as (d & _ & H).
  destruct (initvars c).
  - injection H as <-; reflexivity.
  - apply post_init_class in H; exact H.
Qed.

Lemma Element_from_raw_class c raw o :
  Element_from_raw c raw = Ok o -> class_of o = c.
Proof.
  unfold Element_from_raw; intros H.
  apply bind_Ok in H as (r & Hr & H).
  apply construct_class in Hr.
  apply (foldM_inv (fun x => class_of x = c)) in H; [exact H | | exact Hr].
  intros b [k v] b' Hb Hs; destruct (negb _).
  - apply setattr_class in Hs; congruence.
  - injection Hs as <-; exact Hb.
Qed.

Lemma Link_from_raw_class raw o : Link_from_raw raw = Ok o -> class_of o = Link.
Proof.
  unfold Link_from_raw; intros H.
  apply bind_Ok in H as (href & _ & H).
  apply bind_Ok in H as (display & _ & H).
  apply bind_Ok in H as (r & Hr & H).
  apply construct_class in Hr.
  apply (foldM_inv (fun x => class_of x = Link)) in H; [exact H | | exact Hr].
  intros b [k v] b' Hb Hs; destruct (negb _).
  - apply setattr_class in Hs; congruence.
  - injection Hs as <-; exact Hb.
Qed.

Lemma Style_from_raw_class c raw o :
  Style_from_raw c raw = Ok o -> class_of o = c.
Proof.
  unfold Style_from_raw; intros H.
  destruct (raw_children raw) as [| child rest]; [discriminate H |].
  apply bind_Ok in H as (text & _ & H).
  apply bind_Ok in H as (r & Hr & H).
  apply construct_class in Hr.
  apply (foldM_inv (fun x => class_of x = c)) in H; [exact H | | exact Hr].
  intros b [k v] b' Hb Hs; apply setattr_class in Hs; congruence.
Qed.

Lemma container_class c elem kids o :
  container c elem kids = Ok o -> class_of o = c.
Proof.
  unfold container; intros H.
  apply bind_Ok in H as (res & Hres & H).
  apply Element_from_raw_class in Hres.
  destruct (raw_children elem).
  - injection H as <-; exact Hres.
  - apply bind_Ok in H as (content & _ & H).
    apply setattr_class in H; congruence.
Qed.

(** ** [transform] *)

Lemma transform_children_eq (ch : list RawElement) :
  (fix go (l : list RawElement) : result (list Element) :=
     match l with
     | [] => Ok []
     | x :: xs => y <- transform_elem x ;; ys <- go xs ;; Ok (y :: ys)
     end) ch = transform ch.
Proof.
  unfold transform; induction ch as [| x xs IH]; simpl; [reflexivity |].
  rewrite IH; reflexivity.
Qed.

(** The recursive call on the children is [transform] itself. *)
Lemma transform_elem_eq (elem : RawElement) :
  transform_elem elem =
  match dict_get ELEMENT_TYPE_MAP (raw_type elem) with
  | Some seg_cls => Element_from_raw seg_cls elem
  | None =>
      if str_in (raw_type elem) ["a"; "link"] then Link_from_raw elem
      else
        match dict_get STYLE_TYPE_MAP (raw_type elem) with
        | Some seg_cls => Style_from_raw seg_cls elem
        | None =>
            if str_in (raw_type elem) ["br"; "newline"] then
              construct Br [("text", Val (VStr newline))]
            else if raw_type elem =? "message" then
              container Message elem (transform (raw_children elem))
            else if raw_type elem =? "quote" then
              container Quote elem (transform (raw_children elem))
            else
              kids <- transform (raw_children elem) ;;
              construct Custom
                [("type", Val (VStr (raw_type elem)));
                 ("attrs", Attrs (raw_attrs elem));
                 ("children", Elems kids)]
        end
  end.
Proof.
  destruct elem as [ty attrs ch].
  rewrite <- (transform_children_eq (raw_children (mkRaw ty attrs ch))).
  reflexivity.
Qed.

Lemma ELEMENT_TYPE_MAP_range t c :
  dict_get ELEMENT_TYPE_MAP t = Some c ->
  In c [Text; At; Sharp; Image; Audio; Video; File; Author].
Proof.
  unfold ELEMENT_TYPE_MAP; cbn [dict_get].
  repeat (destruct (_ =? t); [intros [= <-]; simpl; tauto |]).
  discriminate.
Qed.

Lemma STYLE_TYPE_MAP_range t c :
  dict_get STYLE_TYPE_MAP t = Some c ->
  In c [Bold; Italic; Underline; Strikethrough; Spoiler; Code;
        Superscript; Subscript; Paragraph].
Proof.
  unfold STYLE_TYPE_MAP; cbn [dict_get].
  repeat (destruct (_ =? t); [intros [= <-]; simpl; tauto |]).
  discriminate.
Qed.

Lemma dict_mem_false {V} (d : dict V) k :
  dict_mem d k = false <-> dict_get d k = None.
Proof.
  unfold dict_mem; destruct (dict_get d k); split; congruence.
Qed.

(** The class of the element that one node yields, by the branch taken. *)
Lemma transform_elem_class elem e :
  transform_elem elem = Ok e ->
  match dict_get ELEMENT_TYPE_MAP (raw_type elem) with
  | Some c => class_of e = c
  | None =>
      if str_in (raw_type elem) ["a"; "link"] then class_of e = Link
      else
        match dict_get STYLE_TYPE_MAP (raw_type elem) with
        | Some c => class_of e = c
        | None =>
            if str_in (raw_type elem) ["br"; "newline"] then class_of e = Br
            else if raw_type elem =? "message" then class_of e = Message
            else if raw_type elem =? "quote" then class_of e = Quote
            else class_of e = Custom
        end
  end.
Proof.
  rewrite transform_elem_eq; intros H.
  destruct (dict_get ELEMENT_TYPE_MAP _) as [c |].
  { apply Element_from_raw_class in H; exact H. }
  destruct (str_in _ ["a"; "link"]).
  { apply Link_from_raw_class in H; exact H. }
  destruct (dict_get STYLE_TYPE_MAP _) as [c |].
  { apply Style_from_raw_class in H; exact H. }
  destruct (str_in _ ["br"; "newline"]).
  { apply construct_class in H; exact H. }
  destruct (_ =? "message").
  { apply container_class in H; exact H. }
  destruct (_ =? "quote").
  { apply container_class in H; exact H. }
  apply bind_Ok in H as (kids & _ & H).
  apply construct_class in H; exact H.
Qed.

Lemma dict_get_set_same {V} (d : dict V) k v :
  dict_get (dict_set d k v) k = Some v.
Proof.
  induction d as [| [k' v'] d IH]; simpl.
  - rewrite String.eqb_refl; reflexivity.
  - destruct (k' =? k) eqn:E; simpl; rewrite E; [reflexivity | exact IH].
Qed.

Lemma dict_get_key {V} (d : dict V) k v :
  dict_get d k = Some v -> In k (map fst d).
Proof.
  induction d as [| [k' v'] d IH]; simpl; [discriminate |].
  destruct (k' =? k) eqn:E.
  - apply String.eqb_eq in E; intros _; left; exact E.
  - intros H; right; apply IH; exact H.
Qed.

Lemma str_in_In k names : str_in k names = true -> In k names.
Proof.
  unfold str_in; intros H.
  apply existsb_exists in H as (x & Hx & E).
  apply String.eqb_eq in E; subst x; exact Hx.
Qed.

Lemma transform_singleton elem e :
  transform [elem] = Ok [e] <-> transform_elem elem = Ok e.
Proof. unfold transform; apply mapM_singleton. Qed.

Lemma dict_get_set_other {V} (d : dict V) k f v :
  k <> f -> dict_get (dict_set d k v) f = dict_get d f.
Proof.
  intros Hne; induction d as [| [k' v'] d IH]; simpl.
  - apply String.eqb_neq in Hne; rewrite Hne; reflexivity.
  - destruct (k' =? k) eqn:E; simpl.
    + apply String.eqb_eq in E; subst k'.
      apply String.eqb_neq in Hne; rewrite Hne; reflexivity.
    + destruct (k' =? f); [reflexivity | exact IH].
Qed.

(** The attribute pass leaves alone every name that it does not assign. *)
Lemma assign_other keep (attrs : dict value) d f :
  (forall k v, In (k, v) attrs -> keep k = true -> k <> f) ->
  dict_get (assign keep attrs d) f = dict_get d f.
Proof.
  unfold assign; revert d; induction attrs as [| [k v] l IH]; simpl; intros d H.
  - reflexivity.
  - rewrite IH by (intros k' v' Hin; apply (H k' v'); right; exact Hin).
    destruct (keep k) eqn:Hk; [| reflexivity].
    apply dict_get_set_other; apply (H k v); [left; reflexivity | exact Hk].
Qed.

Lemma dict_get_None_In {V} (d : dict V) f :
  dict_get d f = None -> forall k v, In (k, v) d -> k <> f.
Proof.
  induction d as [| [k' v'] d IH]; simpl; intros H k v Hin; [destruct Hin |].
  destruct (k' =? f) eqn:E; [discriminate H |].
  destruct Hin as [[= <- <-] | Hin].
  - apply String.eqb_neq; exact E.
  - apply (IH H k v Hin).
Qed.

(** What [Style.from_raw] does with a node that has a first child with
    a [text]: it builds the instance from the text and runs the
    attribute pass over every attribute of the node. *)
Lemma Style_from_raw_eq c ty attrs child rest t :
  fields c = [("text", None)] -> initvars c = [] ->
  dict_get (raw_attrs child) "text" = Some t ->
  Style_from_raw c (mkRaw ty attrs (child :: rest))
  = match attr_pass_error (fun _ => true) attrs with
    | Some e => Raise e
    | None => Ok (Obj c (assign (fun _ => true) attrs [("text", Val t)]))
    end.
Proof.
  intros Hf Hi Ht; unfold Style_from_raw, getitem.
  cbn [raw_children raw_attrs]; rewrite Ht; cbn [bind].
  unfold construct, field_names; rewrite Hf, Hi.
  cbn [map fst app forallb str_in existsb String.eqb Ascii.eqb Bool.eqb orb
         andb init_fields dict_get bind].
  exact (attr_pass (fun _ => true) attrs c [("text", Val t)]).
Qed.

(** The nested content of the element that a container node yields. *)
Lemma transform_elem_nested elem e :
  transform_elem elem = Ok e ->
  (known_tag (raw_type elem) = false ->
   class_of e = Custom
   /\ exists kids, transform (raw_children elem) = Ok kids
                   /\ getattr e "children" = Ok (Elems kids))
  /\ (raw_type elem = "message" \/ raw_type elem = "quote" ->
      raw_children elem <> [] ->
      exists kids, transform (raw_children elem) = Ok kids
                   /\ getattr e "content" = Ok (Elems kids)).
Proof.
  intros H; rewrite transform_elem_eq in H.
  assert (Hcont : forall c, container c elem (transform (raw_children elem)) = Ok e ->
            raw_children elem <> [] ->
            exists kids, transform (raw_children elem) = Ok kids
                         /\ getattr e "content" = Ok (Elems kids)).
  { intros c Hk Hne; unfold container in Hk.
    apply bind_Ok in Hk as (res & _ & Hk).
    destruct (raw_children elem) as [| x xs]; [congruence |].
    apply bind_Ok in Hk as (content & Hkids & Hk).
    exists content; split; [exact Hkids |].
    destruct res as [c' d]; rewrite setattr_plain in Hk by reflexivity.
    injection Hk as <-; unfold getattr; simpl.
    rewrite dict_get_set_same; reflexivity. }
  split.
  - unfold known_tag; rewrite !orb_false_iff, !dict_mem_false.
    intros (((HE & HL) & HS) & HB).
    unfold str_in in HB; cbn [existsb] in HB.
    rewrite !orb_false_iff in HB; destruct HB as (Hbr & Hnl & Hm & Hq & _).
    rewrite HE, HL, HS in H; unfold str_in in H; cbn [existsb] in H.
    rewrite Hbr, Hnl, Hm, Hq in H; cbn [orb] in H.
    apply bind_Ok in H as (kids & Hkids & H).
    injection H as <-; split; [reflexivity |].
    exists kids; split; [exact Hkids | reflexivity].
  - intros Ht Hne.
    destruct Ht as [Ht | Ht]; rewrite Ht in H; cbn in H.
    + apply (Hcont Message H Hne).
    + apply (Hcont Quote H Hne).
Qed.

(** C5: a node tagged [strong] whose first child carries a [text]
    attribute is handled by the style branch, never by the fallback:
    [transform] runs [Bold.from_raw], which assigns every attribute of
    the node over the text, so the call raises the exception of the
    first attribute whose name cannot be assigned ([__class__],
    [__dict__], [__weakref__]) and otherwise yields one [Bold] element,
    the text with the attributes of the node assigned over it; for every
    node that [transform] accepts, a tag of the element table yields the
    class of that table, the anchor aliases yield [Link], a tag of the
    style table yields the class of that table, and the result is a
    [Custom] exactly when the tag is named by no branch before the
    fallback. *)
Theorem transform_dispatch_precedence :
  (forall attrs child rest t,
      dict_get (raw_attrs child) "text" = Some t ->
      transform [mkRaw "strong" attrs (child :: rest)]
      = match attr_pass_error (fun _ => true) attrs with
        | Some e => Raise e
        | None => Ok [Obj Bold (assign (fun _ => true) attrs [("text", Val t)])]
        end)
  /\ (forall elem e,
         transform [elem] = Ok [e] ->
         (forall c, dict_get ELEMENT_TYPE_MAP (raw_type elem) = Some c ->
                    class_of e = c)
         /\ (str_in (raw_type elem) ["a"; "link"] = true -> class_of e = Link)
         /\ (forall c, dict_get STYLE_TYPE_MAP (raw_type elem) = Some c ->
                       class_of e = c)
         /\ (class_of e = Custom <-> known_tag (raw_type elem) = false)).
Proof.
  split.
  - intros attrs child rest t Ht.
    unfold transform; cbn [mapM]; rewrite transform_elem_eq.
    cbn [raw_type dict_get ELEMENT_TYPE_MAP STYLE_TYPE_MAP str_in existsb
           String.eqb Ascii.eqb Bool.eqb orb].
    rewrite (Style_from_raw_eq Bold "strong" attrs child rest t
               eq_refl eq_refl Ht).
    destruct (attr_pass_error _ attrs); reflexivity.
  - intros elem e H; apply (proj1 (transform_singleton _ _)) in H.
    pose proof (transform_elem_class _ _ H) as Hc.
    split; [| split; [| split]].
    + intros c E; rewrite E in Hc; exact Hc.
    + intros E; apply str_in_In in E; simpl in E.
      destruct E as [E | [E | []]]; rewrite <- E in Hc; exact Hc.
    + intros c E; pose proof (dict_get_key _ _ _ E) as K; simpl in K.
      repeat (destruct K as [K | K];
              [rewrite <- K in E, Hc; simpl in E, Hc; congruence |]).
      destruct K.
    + unfold known_tag; rewrite !orb_false_iff, !dict_mem_false.
      destruct (dict_get ELEMENT_TYPE_MAP _) as [c |] eqn:HE.
      { apply ELEMENT_TYPE_MAP_range in HE; subst c; simpl in HE.
        split; [intros E; rewrite E in HE; intuition discriminate |].
        intros (((E & _) & _) & _); discriminate E. }
      destruct (str_in _ ["a"; "link"]).
      { split; [congruence | intros (((_ & E) & _) & _); discriminate E]. }
      destruct (dict_get STYLE_TYPE_MAP _) as [c |] eqn:HS.
      { apply STYLE_TYPE_MAP_range in HS; subst c; simpl in HS.
        split; [intros E; rewrite E in HS; intuition discriminate |].
        intros ((_ & E) & _); discriminate E. }
      unfold str_in in *; cbn [existsb] in *.
      destruct (_ =? "br"); [split; [congruence | intros (_ & E); discriminate E] |].
      destruct (_ =? "newline"); [split; [congruence | intros (_ & E); discriminate E] |].
      destruct (_ =? "message"); [split; [congruence | intros (_ & E); discriminate E] |].
      destruct (_ =? "quote"); [split; [congruence | intros (_ & E); discriminate E] |].
      simpl; tauto.
Qed.

(** C10: when [transform] returns, the result has exactly the length of
    the input: each node yields one element, the one that [transform]
    yields for that node alone; the element of a node whose tag is named
    by no branch before the fallback is a [Custom] that holds the
    transformed children of the node in [children], and the element of a
    [message] or [quote] node with children holds the transformed
    children in [content]. *)
Theorem transform_one_element_per_node (elements : list RawElement)
    (msg : list Element) :
  transform elements = Ok msg ->
  length msg = length elements
  /\ Forall2 (fun elem e => transform [elem] = Ok [e]) elements msg
  /\ Forall2
       (fun elem e =>
          (known_tag (raw_type elem) = false ->
           class_of e = Custom
           /\ exists kids, transform (raw_children elem) = Ok kids
                           /\ getattr e "children" = Ok (Elems kids))
          /\ (raw_type elem = "message" \/ raw_type elem = "quote" ->
              raw_children elem <> [] ->
              exists kids, transform (raw_children elem) = Ok kids
                           /\ getattr e "content" = Ok (Elems kids)))
       elements msg.
Proof.
  intros H; split; [exact (mapM_length _ _ _ H) |].
  apply mapM_Forall2 in H.
  split; (induction H as [| elem e l r Hx _ IH]; constructor; [| exact IH]).
  - apply transform_singleton; exact Hx.
  - apply transform_elem_nested; exact Hx.
Qed.

(** ** [Resource.of] *)

(** What the constructor call at the end of [Resource.of] builds. *)
Lemma construct_resource rc src cache timeout :
  let data := [("src", Val (VStr src))] in
  let data := match cache with
              | Some b => dict_set data "cache" (Val (VBool b))
              | None => data
              end in
  let data := match timeout with
              | Some t => dict_set data "timeout" (Val (VStr t))
              | None => data
              end in
  construct (cls_of_resource rc) data = Ok (resource_obj rc src cache timeout).
Proof.
  destruct rc, cache, timeout; reflexivity.
Qed.

(** A call that reached the constructor with the source [src] did not
    raise. *)
Ltac built_from H src :=
  match type of H with
  | ?lhs = Raise _ =>
      let C := fresh "C" in
      assert (C : lhs = Ok (resource_obj _ src _ _))
        by (cbn [bind]; apply construct_resource);
      rewrite C in H; discriminate H
  end.

(** C1, as the code has it: [Resource.of] needs at least one content
    source.  With no url, no truthy path and no truthy raw data with a
    truthy mime, it raises the [ValueError] that names the class and
    builds nothing; a url, when given, is the source whatever else is
    given; without a url, a truthy path is the source whatever raw data
    is given; and a call fails only for want of a source or because the
    path has no URI. *)
Theorem Resource_of_sources (as_uri : string -> result string)
    (rc : resource_cls) (url : option string) (path : option pathlike)
    (raw : option rawdata) (mime : option string)
    (extra : option (dict value)) (cache : option bool)
    (timeout : option string) :
  (url = None -> path_truthy path = false ->
   raw_truthy raw && str_truthy mime = false ->
   Resource_of as_uri rc url path raw mime extra cache timeout
   = Raise (ValueError (cls_str (cls_of_resource rc)
                          ++ " need at least one of url, path and raw")))
  /\ (forall u, url = Some u ->
        Resource_of as_uri rc url path raw mime extra cache timeout
        = Ok (resource_obj rc u cache timeout))
  /\ (forall p uri, url = None -> path = Some p -> path_truthy path = true ->
        as_uri (path_text p) = Ok uri ->
        Resource_of as_uri rc url path raw mime extra cache timeout
        = Ok (resource_obj rc uri cache timeout))
  /\ (forall e,
        Resource_of as_uri rc url path raw mime extra cache timeout = Raise e ->
        url = None
        /\ ((exists p, path = Some p /\ path_truthy path = true
                       /\ as_uri (path_text p) = Raise e)
            \/ (path_truthy path = false
                /\ raw_truthy raw && str_truthy mime = false))).
Proof.
  unfold Resource_of; split; [| split; [| split]].
  - intros -> -> ->; reflexivity.
  - intros u ->; cbn [bind]; apply construct_resource.
  - intros p uri -> -> -> Huri; rewrite Huri; cbn [bind].
    apply construct_resource.
  - intros e H.
    destruct url as [u |].
    { built_from H u. }
    split; [reflexivity |].
    destruct (path_truthy path) eqn:Hp.
    + left; destruct path as [p |]; [| discriminate Hp].
      exists p; split; [reflexivity | split; [reflexivity |]].
      destruct (as_uri (path_text p)) as [uri | e'].
      * built_from H uri.
      * cbn [bind] in H; congruence.
    + right; split; [reflexivity |].
      destruct (raw_truthy raw && str_truthy mime); [| reflexivity].
      match type of H with
      | bind (Ok [("src", Val (VStr ?src))]) _ = _ => built_from H src
      end.
Qed.

(** C9, as the code has it: from raw data and a mime type that are both
    truthy (bytes that are not empty, or any [BytesIO]; a mime that is
    not the empty string), with no url and no truthy path, [Resource.of]
    builds the instance whose [src] is the [data:] URI of the mime type
    and of the base64 encoding of the bytes. *)
Theorem Resource_of_raw_data_uri (as_uri : string -> result string)
    (rc : resource_cls) (path : option pathlike) (raw : rawdata)
    (mime : string) (extra : option (dict value)) (cache : option bool)
    (timeout : option string) :
  path_truthy path = false ->
  raw_truthy (Some raw) = true ->
  mime <> EmptyString ->
  Resource_of as_uri rc None path (Some raw) (Some mime) extra cache timeout
  = Ok (resource_obj rc
          ("data:" ++ mime ++ ";base64," ++ b64encode (raw_value raw))
          cache timeout).
Proof.
  intros Hp Hr Hm; unfold Resource_of; rewrite Hp, Hr.
  apply String.eqb_neq in Hm; unfold str_truthy; rewrite Hm; simpl.
  apply construct_resource.
Qed.

(** ** Rendering *)

(** C2, on the code: the element of [At.all()] renders its three unset
    fields too, each as the quoted, escaped text [None], before the
    [type]; the rendering is not the bare broadcast mention. *)
Theorem At_all_render (escape : string -> string) :
  (e <- At_all false ;; str escape e)
  = Ok ("<at id=" ++ dq ++ escape "None" ++ dq
          ++ " name=" ++ dq ++ escape "None" ++ dq
          ++ " role=" ++ dq ++ escape "None" ++ dq
          ++ " type=" ++ dq ++ escape "all" ++ dq ++ " />")
  /\ (e <- At_all false ;; str escape e)
     <> Ok ("<at type=" ++ dq ++ "all" ++ dq ++ " />").
Proof.
  split.
  - str_norm; reflexivity.
  - intros H; cbv in H; congruence.
Qed.

Lemma mapM_id_map {A B} (f : A -> result B) (l : list A) :
  mapM (fun r => r) (map f l) = mapM f l.
Proof.
  induction l as [| x xs IH]; simpl; [reflexivity | rewrite IH; reflexivity].
Qed.

(** The items that [Element.__str__] joins, for an instance whose
    attributes are scalars. *)
Lemma default_attr_items escape render (attrs : dict value) :
  mapM (fun '(k, v) => attr_item escape k v)
    (public (to_view render (as_kwargs attrs)))
  = Ok (map (fun '(k, v) => _attr escape k v) (public attrs)).
Proof.
  unfold public, to_view, as_kwargs.
  induction attrs as [| [k v] l IH]; simpl; [reflexivity |].
  destruct (internal_key k); simpl; [exact IH |].
  rewrite IH; reflexivity.
Qed.

Lemma to_view_get render d k :
  dict_get (to_view render d) k
  = match dict_get d k with
    | Some (Val v) => Some (Val v)
    | Some (Elems l) => Some (Elems (map render l))
    | Some (Attrs a) => Some (Attrs a)
    | None => None
    end.
Proof.
  unfold to_view; induction d as [| [k' x'] d IH]; simpl; [reflexivity |].
  destruct (k' =? k); [destruct x'; reflexivity | exact IH].
Qed.

Lemma as_kwargs_get (attrs : dict value) k :
  dict_get (as_kwargs attrs) k
  = match dict_get attrs k with Some v => Some (Val v) | None => None end.
Proof.
  unfold as_kwargs; induction attrs as [| [k' v] l IH]; simpl; [reflexivity |].
  destruct (k' =? k); [reflexivity | exact IH].
Qed.

(** The call [self.get_type()] of a class other than [Custom], on an
    instance seen by its renderer. *)
Lemma call_get_type_view render c d :
  c <> Custom ->
  call_get_type c (to_view render d)
  = if dict_mem d "get_type" then Raise TypeError else Ok (get_type c).
Proof.
  intros Hc; unfold call_get_type, dict_mem; rewrite to_view_get.
  destruct (dict_get d "get_type") as [[v | l | a] |]; try reflexivity.
  destruct c; try reflexivity; congruence.
Qed.

(** C6: the attribute formatter shared by the default renderer and by
    the renderer of [Custom] gives the bare key for [True], [no-] and the
    key for [False], the key, an equals sign and the unquoted number for
    an integer or a float, and for any other value the key, an equals
    sign and the escaped [str] of the value between double quotes; the
    default renderer joins the formatted public attributes of the
    instance after its tag, unless one of the attributes is named
    [get_type], which hides the method that gives the tag: the call then
    raises a [TypeError]; the renderer of [Custom] joins the formatted
    public entries of its [attrs]. *)
Theorem attr_serialized_by_value_type (escape : string -> string) :
  (forall key, _attr escape key (VBool true) = key)
  /\ (forall key, _attr escape key (VBool false) = "no-" ++ key)
  /\ (forall key z, _attr escape key (VInt z) = key ++ "=" ++ py_str (VInt z))
  /\ (forall key r, _attr escape key (VFloat r) = key ++ "=" ++ r)
  /\ (forall key v,
         (forall b, v <> VBool b) -> (forall z, v <> VInt z) ->
         (forall r, v <> VFloat r) ->
         _attr escape key v = key ++ "=" ++ dq ++ escape (py_str v) ++ dq)
  /\ (forall c attrs,
         default_rendered c = true ->
         str escape (Obj c (as_kwargs attrs))
         = if dict_mem attrs "get_type" then Raise TypeError
           else Ok ("<" ++ get_type c ++ " "
                      ++ join " " (map (fun '(k, v) => _attr escape k v)
                                     (public attrs))
                      ++ " />"))
  /\ (forall type attrs kids parts,
         mapM (str escape) kids = Ok parts ->
         str escape (Obj Custom [("type", Val (VStr type));
                                 ("attrs", Attrs attrs);
                                 ("children", Elems kids)])
         = Ok (let a := join " " (map (fun '(k, v) => _attr escape k v)
                                    (public attrs)) in
               match kids with
               | [] => "<" ++ type ++ " " ++ a ++ " />"
               | _ => "<" ++ type ++ " " ++ a ++ ">" ++ join EmptyString parts
                        ++ "</" ++ type ++ ">"
               end)).
Proof.
  repeat (split; [reflexivity |]).
  split; [| split].
  - intros key v Hb Hz Hr.
    destruct v as [| b | z | r | s |]; try reflexivity.
    + destruct (Hb b); reflexivity.
    + destruct (Hz z); reflexivity.
    + destruct (Hr r); reflexivity.
  - intros c attrs Hc.
    assert (E : str escape (Obj c (as_kwargs attrs))
                = Element_str escape c (to_view (str escape) (as_kwargs attrs))).
    { destruct c; try discriminate Hc; reflexivity. }
    rewrite E; unfold Element_str.
    rewrite default_attr_items; cbn [bind].
    rewrite call_get_type_view by (intros ->; discriminate Hc).
    unfold dict_mem; rewrite as_kwargs_get.
    destruct (dict_get attrs "get_type"); reflexivity.
  - intros type attrs kids parts Hk.
    cbn [str to_view map str_method].
    unfold Custom_str, view_get, call_get_type;
      cbn [dict_get String.eqb Ascii.eqb Bool.eqb bind py_str].
    destruct kids as [| e es]; [reflexivity |].
    cbn [ftruthy map join_strs].
    change (str escape e :: map (str escape) es)
      with (map (str escape) (e :: es)).
    rewrite mapM_id_map, Hk; reflexivity.
Qed.

(** [Message.__str__] on the three fields of an instance, given how its
    content is seen. *)
Lemma Message_str_fields escape c id forward (content : fval (result string)) :
  c <> Custom ->
  Message_str escape c
    [("id", Val (opt_value VStr id));
     ("forward", Val (opt_value VBool forward));
     ("content", content)]
  = if negb (ftruthy content) then
      Ok ("<" ++ get_type c ++ " " ++ message_attrs escape id forward ++ " />")
    else
      body <- join_strs content ;;
      Ok ("<" ++ get_type c ++ " " ++ message_attrs escape id forward ++ ">"
            ++ body ++ "</" ++ get_type c ++ ">").
Proof.
  intros Hc.
  assert (Ht : forall E (d : dict (fval E)),
             dict_get d "get_type" = None ->
             call_get_type c d = Ok (get_type c)).
  { intros E d Hd; unfold call_get_type; rewrite Hd.
    destruct c; try reflexivity; congruence. }
  unfold Message_str, message_attrs, view_get.
  rewrite Ht by reflexivity.
  cbn [dict_get String.eqb Ascii.eqb Bool.eqb bind].
  destruct id as [i |]; cbn [opt_value ftruthy truthy].
  - destruct (i =? ""); destruct forward as [[|] |]; reflexivity.
  - destruct forward as [[|] |]; reflexivity.
Qed.

(** C7: a [Message] or [Quote] built from an [id], a [forward] flag and
    a content renders as a self-closing tag when the content is absent
    or empty, and otherwise as the opening tag, the renderings of the
    elements of the content joined in order with nothing between them,
    and the closing tag; the attributes of the tag are the [id], quoted
    and escaped, when there is a non-empty one, then the bare word
    [forward] when the flag is true. *)
Theorem Message_render (escape : string -> string) (c : cls)
    (id : option string) (forward : option bool)
    (content : option (list Element)) :
  c = Message \/ c = Quote ->
  construct c [("id", Val (opt_value VStr id));
               ("forward", Val (opt_value VBool forward));
               ("content", match content with
                           | Some l => Elems l
                           | None => Val VNone
                           end)]
  = Ok (message_obj c id forward content)
  /\ (content = None \/ content = Some [] ->
      str escape (message_obj c id forward content)
      = Ok ("<" ++ get_type c ++ " " ++ message_attrs escape id forward
              ++ " />"))
  /\ (forall e es parts,
         content = Some (e :: es) ->
         mapM (str escape) (e :: es) = Ok parts ->
         str escape (message_obj c id forward content)
         = Ok ("<" ++ get_type c ++ " " ++ message_attrs escape id forward
                 ++ ">" ++ join EmptyString parts
                 ++ "</" ++ get_type c ++ ">"))
  /\ message_attrs escape id forward
     = join " "
         (app (match id with
               | Some i => if i =? "" then [] else ["id=" ++ dq ++ escape i ++ dq]
               | None => []
               end)
              (match forward with Some true => ["forward"] | _ => [] end))
  /\ get_type c = (match c with Quote => "quote" | _ => "message" end).
Proof.
  intros Hc.
  assert (E : forall d, str escape (Obj c d)
                        = Message_str escape c (to_view (str escape) d)).
  { destruct Hc as [-> | ->]; reflexivity. }
  split; [| split; [| split; [| split]]].
  - destruct Hc as [-> | ->]; reflexivity.
  - intros Hn; unfold message_obj; rewrite E.
    destruct Hn as [-> | ->]; cbn [to_view map];
      rewrite Message_str_fields by (destruct Hc as [-> | ->]; discriminate);
      reflexivity.
  - intros e es parts -> Hp; unfold message_obj; rewrite E.
    unfold to_view; cbn [map];
      rewrite Message_str_fields by (destruct Hc as [-> | ->]; discriminate).
    cbn [ftruthy negb join_strs].
    change (str escape e :: map (str escape) es)
      with (map (str escape) (e :: es)).
    rewrite mapM_id_map, Hp; reflexivity.
  - reflexivity.
  - destruct Hc as [-> | ->]; reflexivity.
Qed.

(** ** Attributes named like fields *)

Lemma kwargs_of_fields names more (attrs : dict value) :
  forallb (fun '(k, _) => str_in k (names ++ more)%list)
    (as_kwargs (filter (fun '(k, _) => str_in k names) attrs)) = true.
Proof.
  unfold as_kwargs; induction attrs as [| [k v] l IH]; simpl; [reflexivity |].
  destruct (str_in k names) eqn:E; simpl; [| exact IH].
  unfold str_in in *; rewrite existsb_app, E; exact IH.
Qed.

Lemma kwargs_get_filtered names (attrs : dict value) f :
  str_in f names = false ->
  dict_get (as_kwargs (filter (fun '(k, _) => str_in k names) attrs)) f = None.
Proof.
  unfold as_kwargs; intros Hf; induction attrs as [| [k v] l IH]; simpl.
  - reflexivity.
  - destruct (str_in k names) eqn:E; simpl; [| exact IH].
    destruct (k =? f) eqn:Ek; [| exact IH].
    apply String.eqb_eq in Ek; congruence.
Qed.

(** [Element.from_raw] never assigns over a field: the instance holds
    what the constructor stored in each field (the attribute of that
    name, else the default), and the attribute pass only adds the
    attributes with other names. *)
Lemma Element_from_raw_eq c raw :
  Element_from_raw c raw
  = (d <- init_fields (fields c)
            (as_kwargs (filter (fun '(k, _) => str_in k (field_names c))
                          (raw_attrs raw))) ;;
     match attr_pass_error (fun k => negb (str_in k (field_names c)))
             (raw_attrs raw) with
     | Some e => Raise e
     | None => Ok (Obj c (assign (fun k => negb (str_in k (field_names c)))
                            (raw_attrs raw) d))
     end).
Proof.
  unfold Element_from_raw, construct.
  rewrite kwargs_of_fields.
  destruct (init_fields _ _) as [d | e]; [| reflexivity].
  cbn [bind].
  assert (P : match initvars c with
              | [] => Ok (Obj c d)
              | _ :: _ =>
                  post_init (Obj c d)
                    (dict_get
                       (as_kwargs
                          (filter (fun '(k, _) => str_in k (field_names c))
                             (raw_attrs raw))) "extra")
              end = Ok (Obj c d)).
  { destruct (initvars c); [reflexivity |].
    rewrite kwargs_get_filtered by (destruct c; reflexivity).
    reflexivity. }
  rewrite P; cbn [bind].
  exact (attr_pass (fun k => negb (str_in k (field_names c))) (raw_attrs raw)
           c d).
Qed.

Lemma Element_from_raw_keeps_fields c raw o f :
  Element_from_raw c raw = Ok o ->
  str_in f (field_names c) = true ->
  exists d,
    init_fields (fields c)
      (as_kwargs (filter (fun '(k, _) => str_in k (field_names c))
                    (raw_attrs raw))) = Ok d
    /\ dict_get (vars o) f = dict_get d f.
Proof.
  rewrite Element_from_raw_eq; intros H Hf.
  apply bind_Ok in H as (d & Hd & H).
  destruct (attr_pass_error _ _); [discriminate H |]; injection H as <-.
  exists d; split; [exact Hd |].
  apply assign_other; intros k v _ Hk <-.
  rewrite Hf in Hk; discriminate Hk.
Qed.

(** [Style.from_raw] on a node without children, and on a node that
    has no attribute named [text]. *)
Lemma Style_from_raw_no_children c ty attrs :
  Style_from_raw c (mkRaw ty attrs []) = Raise IndexError.
Proof. reflexivity. Qed.

Lemma Style_from_raw_text c ty attrs child rest t :
  fields c = [("text", None)] -> initvars c = [] ->
  dict_get (raw_attrs child) "text" = Some t ->
  dict_get attrs "text" = None ->
  attr_pass_error (fun _ => true) attrs = None ->
  exists o, Style_from_raw c (mkRaw ty attrs (child :: rest)) = Ok o
            /\ getattr o "text" = Ok (Val t).
Proof.
  intros Hf Hi Ht Hn Hp; eexists; split.
  - rewrite (Style_from_raw_eq c ty attrs child rest t Hf Hi Ht), Hp.
    reflexivity.
  - unfold getattr; simpl.
    rewrite assign_other; [reflexivity |].
    intros k v Hin _; apply (dict_get_None_In _ _ Hn k v Hin).
Qed.

(** [Link.from_raw]: without [href] it raises; with it, the instance is
    built from [href] and from the [text] of the first child, and then
    every other attribute of the node is assigned. *)
Lemma Link_from_raw_no_href ty attrs children :
  dict_get attrs "href" = None ->
  Link_from_raw (mkRaw ty attrs children) = Raise (KeyError "href").
Proof.
  intros H; unfold Link_from_raw, getitem; simpl; rewrite H; reflexivity.
Qed.

Lemma Link_from_raw_eq ty attrs children href :
  dict_get attrs "href" = Some href ->
  Link_from_raw (mkRaw ty attrs children)
  = (display <- match children with
                | child :: _ => getitem (raw_attrs child) "text"
                | [] => Ok VNone
                end ;;
     match attr_pass_error (fun k => negb (k =? "href")) attrs with
     | Some e => Raise e
     | None => Ok (Obj Link (assign (fun k => negb (k =? "href")) attrs
                               [("url", Val href); ("display", Val display)]))
     end).
Proof.
  intros H; unfold Link_from_raw, getitem.
  cbn [raw_attrs raw_children]; rewrite H; cbn [bind].
  destruct (match children with [] => _ | _ => _ end) as [display | e];
    [| reflexivity].
  cbn [bind]; unfold construct.
  cbn [field_names fields initvars map fst app forallb str_in existsb
         String.eqb Ascii.eqb Bool.eqb orb andb init_fields dict_get bind].
  exact (attr_pass (fun k => negb (k =? "href")) attrs Link
           [("url", Val href); ("display", Val display)]).
Qed.

Lemma Link_from_raw_display ty attrs children href display :
  dict_get attrs "href" = Some href ->
  dict_get attrs "display" = None ->
  attr_pass_error (fun k => negb (k =? "href")) attrs = None ->
  match children with
  | child :: _ => dict_get (raw_attrs child) "text" = Some display
  | [] => display = VNone
  end ->
  exists o, Link_from_raw (mkRaw ty attrs children) = Ok o
            /\ getattr o "display" = Ok (Val display).
Proof.
  intros Hh Hn Hp Hd; rewrite (Link_from_raw_eq _ _ _ _ Hh), Hp.
  assert (E : match children with
              | child :: _ => getitem (raw_attrs child) "text"
              | [] => Ok VNone
              end = Ok display).
  { destruct children as [| child rest]; [subst; reflexivity |].
    unfold getitem; rewrite Hd; reflexivity. }
  rewrite E; cbn [bind]; eexists; split; [reflexivity |].
  unfold getattr; simpl.
  rewrite assign_other; [reflexivity |].
  intros k v Hin _; apply (dict_get_None_In _ _ Hn k v Hin).
Qed.

(** A [Link] whose display is unset or empty renders self-closing. *)
Lemma Link_str_no_display escape url display :
  display = VNone \/ display = VStr EmptyString ->
  str escape (Obj Link [("url", Val (VStr url)); ("display", Val display)])
  = Ok ("<a href=" ++ dq ++ escape url ++ dq ++ "/>").
Proof.
  intros [-> | ->]; reflexivity.
Qed.

(** C3, on the code: an attribute of an anchor node that is named like
    a field of [Link] replaces the value built from [href], and an
    attribute named [text] on a style node replaces the text of the
    first child; the element then renders the attribute. *)
Theorem from_raw_attribute_replaces_field (escape : string -> string) :
  Link_from_raw (mkRaw "a" [("href", VStr "https://x"); ("url", VStr "https://y")] [])
  = Ok (Obj Link [("url", Val (VStr "https://y")); ("display", Val VNone)])
  /\ Style_from_raw Bold
       (mkRaw "b" [("text", VStr "shown")]
          [mkRaw "text" [("text", VStr "hi")] []])
     = Ok (Obj Bold [("text", Val (VStr "shown"))])
  /\ Element_from_raw Sharp
       (mkRaw "sharp" [("name", VStr "n"); ("id", VStr "1"); ("x", VInt 2)] [])
     = Ok (Obj Sharp [("id", Val (VStr "1")); ("name", Val (VStr "n"));
                      ("x", Val (VInt 2))])
  /\ (l <- transform [mkRaw "a" [("href", VStr "https://x");
                                   ("url", VStr "https://y")] []] ;;
      mapM (str escape) l)
     = Ok ["<a href=" ++ dq ++ escape "https://y" ++ dq ++ "/>"].
Proof.
  repeat split; reflexivity.
Qed.

(** C4, on the code: a style node that carries an attribute named
    [text] yields an element whose text is that attribute, not the
    [text] of the first child. *)
Theorem transform_style_text_replaced (escape : string -> string) :
  transform [mkRaw "b" [("text", VStr "shown")]
               [mkRaw "text" [("text", VStr "hi")] []]]
  = Ok [Obj Bold [("text", Val (VStr "shown"))]]
  /\ (l <- transform [mkRaw "b" [("text", VStr "shown")]
                        [mkRaw "text" [("text", VStr "hi")] []]] ;;
      mapM (str escape) l)
     = Ok ["<b>" ++ escape "shown" ++ "</b>"].
Proof.
  split; reflexivity.
Qed.

(** C8, on the code: an anchor node that carries an attribute named
    [display] yields a [Link] whose display is that attribute: not the
    [text] of the first child when there is one, and not [None] when
    there is none, so that the link does not render self-closing. *)
Theorem transform_link_display_replaced (escape : string -> string) :
  transform [mkRaw "a" [("href", VStr "https://x"); ("display", VStr "shown")]
               [mkRaw "text" [("text", VStr "child")] []]]
  = Ok [Obj Link [("url", Val (VStr "https://x"));
                  ("display", Val (VStr "shown"))]]
  /\ transform [mkRaw "link" [("href", VStr "https://x"); ("display", VStr "shown")] []]
     = Ok [Obj Link [("url", Val (VStr "https://x"));
                     ("display", Val (VStr "shown"))]]
  /\ (l <- transform [mkRaw "link" [("href", VStr "https://x");
                                      ("display", VStr "shown")] []] ;;
      mapM (str escape) l)
     = Ok ["<a href=" ++ dq ++ escape "https://x" ++ dq ++ ">"
             ++ escape "shown" ++ "</a>"].
Proof.
  repeat split; reflexivity.
Qed.

(** ** Concrete runs *)

(** C1: a call with both a url and a path builds the element, from the
    url. *)
Lemma Resource_of_url_and_path_builds :
  Resource_of as_uri_posix RImage (Some "https://x/a.png")
    (Some (PathStr "/tmp/a.png")) None None None None None
  = Ok (Obj Image [("src", Val (VStr "https://x/a.png"));
                   ("cache", Val VNone); ("timeout", Val VNone);
                   ("width", Val VNone); ("height", Val VNone)]).
Proof. reflexivity. Qed.

Lemma Resource_of_sources_witness :
  Resource_of as_uri_posix RFile None None None None None None None
  = Raise (ValueError
             "<class 'satori.element.File'> need at least one of url, path and raw")
  /\ Resource_of as_uri_posix RAudio (Some "https://x/a.ogg")
       (Some (PathObj "/tmp/a.ogg")) (Some (RawBytes [x01])) (Some "audio/ogg")
       None (Some true) None
     = Ok (Obj Audio [("src", Val (VStr "https://x/a.ogg"));
                      ("cache", Val (VBool true)); ("timeout", Val VNone)]).
Proof.
  split.
  - exact (proj1 (Resource_of_sources as_uri_posix RFile None None None None
                    None None None) eq_refl eq_refl eq_refl).
  - exact (proj1 (proj2 (Resource_of_sources as_uri_posix RAudio
                           (Some "https://x/a.ogg") (Some (PathObj "/tmp/a.ogg"))
                           (Some (RawBytes [x01])) (Some "audio/ogg")
                           None (Some true) None))
             "https://x/a.ogg" eq_refl).
Defined.

(** C9: empty bytes are no source, the call raises. *)
Lemma Resource_of_empty_bytes_raises :
  Resource_of as_uri_posix RImage None None (Some (RawBytes []))
    (Some "image/png") None None None
  = Raise (ValueError
             "<class 'satori.element.Image'> need at least one of url, path and raw").
Proof. reflexivity. Qed.

Lemma Resource_of_raw_data_uri_witness :
  Resource_of as_uri_posix RImage None None (Some (RawBytes [x01; x02]))
    (Some "image/png") None None None
  = Ok (Obj Image [("src", Val (VStr "data:image/png;base64,AQI="));
                   ("cache", Val VNone); ("timeout", Val VNone);
                   ("width", Val VNone); ("height", Val VNone)]).
Proof.
  refine (Resource_of_raw_data_uri as_uri_posix RImage None
            (RawBytes [x01; x02]) "image/png" None None None
            eq_refl eq_refl _).
  discriminate.
Defined.

Lemma transform_dispatch_precedence_witness :
  transform [mkRaw "strong" [("class", VStr "k")]
               [mkRaw "text" [("text", VStr "hi")] []]]
  = Ok [Obj Bold [("text", Val (VStr "hi")); ("class", Val (VStr "k"))]].
Proof.
  exact (proj1 transform_dispatch_precedence [("class", VStr "k")]
           (mkRaw "text" [("text", VStr "hi")] []) [] (VStr "hi") eq_refl).
Defined.

(** C5: a [strong] node with an attribute named [__class__] yields no
    element: assigning the attribute raises. *)
Lemma transform_strong_refused_attribute :
  transform [mkRaw "strong" [("__class__", VStr "x")]
               [mkRaw "text" [("text", VStr "hi")] []]]
  = Raise TypeError.
Proof. reflexivity. Qed.

Lemma transform_one_element_per_node_witness :
  length
       [Obj Message [("id", Val (VStr "1")); ("forward", Val VNone);
                     ("content", Elems [Obj Text [("text", Val (VStr "hi"))]])];
        Obj Custom [("type", Val (VStr "foo")); ("attrs", Attrs [("a", VInt 1)]);
                    ("children", Elems [Obj Br [("text", Val (VStr newline))]])]]
  = length
       [mkRaw "message" [("id", VStr "1")]
          [mkRaw "text" [("text", VStr "hi")] []];
        mkRaw "foo" [("a", VInt 1)] [mkRaw "br" [] []]]
  /\ Forall2 (fun elem e => transform [elem] = Ok [e])
       [mkRaw "message" [("id", VStr "1")]
          [mkRaw "text" [("text", VStr "hi")] []];
        mkRaw "foo" [("a", VInt 1)] [mkRaw "br" [] []]]
       [Obj Message [("id", Val (VStr "1")); ("forward", Val VNone);
                     ("content", Elems [Obj Text [("text", Val (VStr "hi"))]])];
        Obj Custom [("type", Val (VStr "foo")); ("attrs", Attrs [("a", VInt 1)]);
                    ("children", Elems [Obj Br [("text", Val (VStr newline))]])]]
  /\ Forall2
       (fun elem e =>
          (known_tag (raw_type elem) = false ->
           class_of e = Custom
           /\ exists kids, transform (raw_children elem) = Ok kids
                           /\ getattr e "children" = Ok (Elems kids))
          /\ (raw_type elem = "message" \/ raw_type elem = "quote" ->
              raw_children elem <> [] ->
              exists kids, transform (raw_children elem) = Ok kids
                           /\ getattr e "content" = Ok (Elems kids)))
       [mkRaw "message" [("id", VStr "1")]
          [mkRaw "text" [("text", VStr "hi")] []];
        mkRaw "foo" [("a", VInt 1)] [mkRaw "br" [] []]]
       [Obj Message [("id", Val (VStr "1")); ("forward", Val VNone);
                     ("content", Elems [Obj Text [("text", Val (VStr "hi"))]])];
        Obj Custom [("type", Val (VStr "foo")); ("attrs", Attrs [("a", VInt 1)]);
                    ("children", Elems [Obj Br [("text", Val (VStr newline))]])]].
Proof.
  exact (transform_one_element_per_node
           [mkRaw "message" [("id", VStr "1")]
              [mkRaw "text" [("text", VStr "hi")] []];
            mkRaw "foo" [("a", VInt 1)] [mkRaw "br" [] []]]
           _ eq_refl).
Defined.

Lemma attr_serialized_by_value_type_witness :
  str escape_markup
    (Obj Sharp (as_kwargs [("id", VStr "a<b"); ("name", VNone); ("_k", VInt 0);
                           ("pinned", VBool true); ("muted", VBool false);
                           ("n", VInt (-3)); ("ratio", VFloat "1.5")]))
  = Ok ("<sharp id=" ++ dq ++ "a&lt;b" ++ dq ++ " name=" ++ dq ++ "None" ++ dq
          ++ " pinned no-muted n=-3 ratio=1.5 />")
  /\ str escape_markup
       (Obj Sharp (as_kwargs [("id", VStr "1"); ("get_type", VStr "x")]))
     = Raise TypeError
  /\ str escape_markup
       (Obj Custom [("type", Val (VStr "foo")); ("attrs", Attrs [("a", VInt 1)]);
                    ("children", Elems [])])
     = Ok "<foo a=1 />".
Proof.
  destruct (attr_serialized_by_value_type escape_markup)
    as (_ & _ & _ & _ & _ & Hdefault & Hcustom).
  split; [| split].
  - exact (Hdefault Sharp
             [("id", VStr "a<b"); ("name", VNone); ("_k", VInt 0);
              ("pinned", VBool true); ("muted", VBool false);
              ("n", VInt (-3)); ("ratio", VFloat "1.5")] eq_refl).
  - exact (Hdefault Sharp [("id", VStr "1"); ("get_type", VStr "x")] eq_refl).
  - exact (Hcustom "foo" [("a", VInt 1)] [] [] eq_refl).
Defined.

Lemma Message_render_witness :
  str escape_markup
    (message_obj Message (Some "1") (Some true)
       (Some [Obj Text [("text", Val (VStr "a<b"))];
              Obj Bold [("text", Val (VStr "hi"))]]))
  = Ok ("<message id=" ++ dq ++ "1" ++ dq ++ " forward>a&lt;b<b>hi</b></message>")
  /\ str escape_markup (message_obj Quote None None (Some []))
     = Ok "<quote  />".
Proof.
  split.
  - destruct (Message_render escape_markup Message (Some "1") (Some true)
                (Some [Obj Text [("text", Val (VStr "a<b"))];
                       Obj Bold [("text", Val (VStr "hi"))]])
                (or_introl eq_refl))
      as (_ & _ & H & _).
    exact (H _ _ _ eq_refl eq_refl).
  - destruct (Message_render escape_markup Quote None None (Some [])
                (or_intror eq_refl))
      as (_ & H & _).
    exact (H (or_intror eq_refl)).
Defined.

(** * Further properties of the code *)

(** ** Dictionaries *)

Lemma dict_get_app {V} (d1 d2 : dict V) k :
  dict_get (d1 ++ d2)%list k
  = match dict_get d1 k with Some v => Some v | None => dict_get d2 k end.
Proof.
  induction d1 as [| [k' v'] d1 IH]; simpl; [reflexivity |].
  destruct (k' =? k); [reflexivity | exact IH].
Qed.

Lemma dict_get_not_key {V} (d : dict V) k :
  ~ In k (map fst d) -> dict_get d k = None.
Proof.
  induction d as [| [k' v'] d IH]; simpl; intros H; [reflexivity |].
  destruct (k' =? k) eqn:E.
  - apply String.eqb_eq in E; destruct H; left; exact E.
  - apply IH; intros Hin; apply H; right; exact Hin.
Qed.

Lemma dict_set_new {V} (d : dict V) k v :
  dict_get d k = None -> dict_set d k v = (d ++ [(k, v)])%list.
Proof.
  induction d as [| [k' v'] d IH]; simpl; intros H; [reflexivity |].
  destruct (k' =? k); [discriminate H |].
  rewrite (IH H); reflexivity.
Qed.

Lemma dict_get_In {V} (d : dict V) k v :
  NoDup (map fst d) -> In (k, v) d -> dict_get d k = Some v.
Proof.
  induction d as [| [k' v'] d IH]; simpl; intros Hnd Hin; [destruct Hin |].
  inversion Hnd as [| ? ? Hk Hd]; subst.
  destruct Hin as [[= -> ->] | Hin].
  - rewrite String.eqb_refl; reflexivity.
  - destruct (k' =? k) eqn:E; [| apply IH; assumption].
    apply String.eqb_eq in E; subst k'.
    destruct Hk; apply (in_map fst) in Hin; exact Hin.
Qed.

Lemma str_in_true k names : str_in k names = true <-> In k names.
Proof.
  split; [apply str_in_In |].
  unfold str_in; intros H; apply existsb_exists.
  exists k; split; [exact H | apply String.eqb_refl].
Qed.

Lemma str_in_false k names : str_in k names = false <-> ~ In k names.
Proof.
  rewrite <- str_in_true; destruct (str_in k names); split; congruence.
Qed.

(** The attribute pass appends, in order, the attributes that it keeps,
    when their names are new and distinct. *)
Lemma assign_append keep (attrs : dict value) d :
  NoDup (map fst attrs) ->
  (forall k v, In (k, v) attrs -> keep k = true -> dict_get d k = None) ->
  assign keep attrs d
  = (d ++ as_kwargs (filter (fun '(k, _) => keep k) attrs))%list.
Proof.
  unfold assign, as_kwargs; revert d.
  induction attrs as [| [k v] l IH]; simpl; intros d Hnd Hnew.
  - rewrite app_nil_r; reflexivity.
  - inversion Hnd as [| ? ? Hk Hl]; subst.
    destruct (keep k) eqn:E.
    + rewrite (dict_set_new d k (Val v))
        by (apply (Hnew k v); [left; reflexivity | exact E]).
      rewrite IH; [simpl; rewrite <- app_assoc; reflexivity | exact Hl |].
      intros k' v' Hin Hkeep; rewrite dict_get_app.
      rewrite (Hnew k' v') by (try right; assumption); simpl.
      destruct (k =? k') eqn:Ek; [| reflexivity].
      apply String.eqb_eq in Ek; subst k'.
      destruct Hk; apply (in_map fst) in Hin; exact Hin.
    + apply IH; [exact Hl |].
      intros k' v' Hin; apply (Hnew k' v'); right; exact Hin.
Qed.

(** ** The generated constructor *)

Lemma init_fields_keys fs kw d :
  init_fields fs kw = Ok d -> map fst d = map fst fs.
Proof.
  revert d; induction fs as [| [f dflt] fs IH]; simpl; intros d H.
  - injection H as <-; reflexivity.
  - apply bind_Ok in H as (v & _ & H).
    apply bind_Ok in H as (rest & Hrest & H).
    injection H as <-; simpl; rewrite (IH rest Hrest); reflexivity.
Qed.

Lemma init_fields_get fs kw d f dflt :
  init_fields fs kw = Ok d ->
  NoDup (map fst fs) ->
  In (f, dflt) fs ->
  match dict_get kw f with
  | Some v => dict_get d f = Some v
  | None => exists v, dflt = Some v /\ dict_get d f = Some v
  end.
Proof.
  revert d; induction fs as [| [f' dflt'] fs IH]; simpl; intros d H Hnd Hin.
  - destruct Hin.
  - apply bind_Ok in H as (v & Hv & H).
    apply bind_Ok in H as (rest & Hrest & H).
    injection H as <-; simpl.
    inversion Hnd as [| ? ? Hf Hfs]; subst.
    destruct Hin as [[= -> ->] | Hin].
    + rewrite String.eqb_refl.
      destruct (dict_get kw f) as [w |].
      * injection Hv as ->; reflexivity.
      * destruct dflt as [w |]; [| discriminate Hv].
        injection Hv as ->; exists v; split; reflexivity.
    + destruct (f' =? f) eqn:E.
      * apply String.eqb_eq in E; subst f'.
        destruct Hf; apply (in_map fst) in Hin; exact Hin.
      * apply (IH rest Hrest Hfs Hin).
Qed.

Lemma init_fields_Raise fs kw e :
  init_fields fs kw = Raise e <->
  e = TypeError /\ exists f, In (f, None) fs /\ dict_get kw f = None.
Proof.
  induction fs as [| [f dflt] fs IH]; simpl.
  - split; [discriminate | intros (_ & f & [] & _)].
  - assert (Hrest : forall v : fval Element,
               (v' <- Ok v ;; rest <- init_fields fs kw ;; Ok ((f, v') :: rest))
               = Raise e <-> init_fields fs kw = Raise e).
    { intros v; cbn [bind].
      destruct (init_fields fs kw); cbn [bind]; split; congruence. }
    destruct (dict_get kw f) as [v |] eqn:Hv; [| destruct dflt as [v |]].
    + rewrite Hrest, IH; split; intros (He & f' & Hin & Hf');
        (split; [exact He |]); exists f'.
      * split; [right |]; assumption.
      * destruct Hin as [E | Hin]; [| split; assumption].
        injection E as <- _; congruence.
    + rewrite Hrest, IH; split; intros (He & f' & Hin & Hf');
        (split; [exact He |]); exists f'.
      * split; [right |]; assumption.
      * destruct Hin as [E | Hin]; [discriminate E | split; assumption].
    + cbn [bind]; split.
      * intros [= <-]; split; [reflexivity |].
        exists f; split; [left; reflexivity | exact Hv].
      * intros (-> & _); reflexivity.
Qed.

Lemma init_fields_eq fs kw d :
  init_fields fs kw = Ok d ->
  d = map (fun '(f, dflt) =>
             (f, match dict_get kw f, dflt with
                 | Some v, _ => v
                 | None, Some v => v
                 | None, None => Val VNone
                 end)) fs.
Proof.
  revert d; induction fs as [| [f dflt] fs IH]; simpl; intros d H.
  - injection H as <-; reflexivity.
  - apply bind_Ok in H as (v & Hv & H).
    apply bind_Ok in H as (rest & Hrest & H).
    injection H as <-; rewrite <- (IH rest Hrest); f_equal; f_equal.
    destruct (dict_get kw f); [| destruct dflt]; congruence.
Qed.

Lemma fields_NoDup c : NoDup (field_names c).
Proof.
  destruct c; cbv [field_names fields map fst];
    repeat (constructor; [simpl; intuition discriminate |]); constructor.
Qed.

Lemma field_name_in c f dflt : In (f, dflt) (fields c) -> In f (field_names c).
Proof. intros H; apply (in_map fst) in H; exact H. Qed.

Lemma kwargs_get_kept names (attrs : dict value) f :
  str_in f names = true ->
  dict_get (as_kwargs (filter (fun '(k, _) => str_in k names) attrs)) f
  = option_map Val (dict_get attrs f).
Proof.
  unfold as_kwargs; intros Hf; induction attrs as [| [k v] l IH]; simpl.
  - reflexivity.
  - destruct (k =? f) eqn:Ek.
    + apply String.eqb_eq in Ek; subst k; rewrite Hf; simpl.
      rewrite String.eqb_refl; reflexivity.
    + destruct (str_in k names); simpl; [rewrite Ek |]; exact IH.
Qed.

(** ** [Element.from_raw] *)

(** After [Element.from_raw], each field of the class holds the
    attribute of the node that has its name, and its default when the
    node has none. *)
Lemma from_raw_field c raw o f dflt :
  Element_from_raw c raw = Ok o ->
  In (f, dflt) (fields c) ->
  match dict_get (raw_attrs raw) f with
  | Some v => getattr o f = Ok (Val v)
  | None => exists dv, dflt = Some dv /\ getattr o f = Ok dv
  end.
Proof.
  rewrite Element_from_raw_eq; intros H Hin.
  apply bind_Ok in H as (d & Hd & H).
  destruct (attr_pass_error _ _); [discriminate H |]; injection H as <-.
  pose proof (field_name_in _ _ _ Hin) as Hf; apply str_in_true in Hf.
  assert (G : dict_get (assign (fun k => negb (str_in k (field_names c)))
                          (raw_attrs raw) d) f = dict_get d f).
  { apply assign_other; intros k v _ Hk <-.
    rewrite Hf in Hk; discriminate Hk. }
  unfold getattr; cbn [vars]; rewrite G.
  pose proof (init_fields_get _ _ _ _ _ Hd (fields_NoDup c) Hin) as V.
  rewrite (kwargs_get_kept _ _ _ Hf) in V.
  destruct (dict_get (raw_attrs raw) f) as [v |]; simpl in V.
  - rewrite V; reflexivity.
  - destruct V as (dv & -> & V); exists dv; rewrite V; split; reflexivity.
Qed.

(** [Element.from_raw] raises a [TypeError] when the node lacks an
    attribute for a field that has no default; when no such field is
    missing, it raises exactly when an attribute of the node that is no
    field has a name that cannot be assigned, and then the exception of
    the first such attribute; in every other case it returns. *)
Theorem Element_from_raw_fails c raw e :
  Element_from_raw c raw = Raise e <->
  (e = TypeError
   /\ exists f, In (f, None) (fields c) /\ dict_get (raw_attrs raw) f = None)
  \/ ((forall f, In (f, None) (fields c) -> dict_get (raw_attrs raw) f <> None)
      /\ attr_pass_error (fun k => negb (str_in k (field_names c)))
           (raw_attrs raw) = Some e).
Proof.
  rewrite Element_from_raw_eq.
  assert (K : forall f, In (f, None) (fields c) ->
                dict_get (as_kwargs
                            (filter (fun '(k, _) => str_in k (field_names c))
                               (raw_attrs raw))) f = None
                <-> dict_get (raw_attrs raw) f = None).
  { intros f Hin; apply field_name_in, str_in_true in Hin.
    rewrite (kwargs_get_kept _ _ _ Hin).
    destruct (dict_get (raw_attrs raw) f); simpl; split; congruence. }
  destruct (init_fields _ _) as [d | e'] eqn:Hd; cbn [bind].
  - assert (Hall : forall f, In (f, None) (fields c) ->
                     dict_get (raw_attrs raw) f <> None).
    { intros f Hin Hf; apply (K f Hin) in Hf.
      assert (X : init_fields (fields c)
                    (as_kwargs (filter (fun '(k, _) => str_in k (field_names c))
                                  (raw_attrs raw))) = Raise TypeError)
        by (apply init_fields_Raise; split;
            [reflexivity | exists f; split; assumption]).
      congruence. }
    split.
    + intros H; right; split; [exact Hall |].
      destruct (attr_pass_error _ _); congruence.
    + intros [(_ & f & Hin & Hf) | (_ & Hp)].
      * destruct (Hall f Hin Hf).
      * rewrite Hp; reflexivity.
  - apply init_fields_Raise in Hd as (He' & f & Hin & Hf).
    apply (K f Hin) in Hf.
    split.
    + intros [= <-]; left; split; [exact He' |].
      exists f; split; assumption.
    + intros [(-> & _) | (Hall & _)].
      * rewrite He'; reflexivity.
      * destruct (Hall f Hin Hf).
Qed.

(** The instance dictionary after [Element.from_raw], for a node whose
    attribute names are distinct: the fields in declaration order, then
    the attributes of the node that are not fields, in node order. *)
Lemma from_raw_layout c raw o :
  Element_from_raw c raw = Ok o ->
  NoDup (map fst (raw_attrs raw)) ->
  o = Obj c
        (map (fun '(f, dflt) =>
                (f, match dict_get (raw_attrs raw) f, dflt with
                    | Some v, _ => Val v
                    | None, Some dv => dv
                    | None, None => Val VNone
                    end)) (fields c)
         ++ as_kwargs (filter (fun '(k, _) => negb (str_in k (field_names c)))
                         (raw_attrs raw)))%list.
Proof.
  rewrite Element_from_raw_eq; intros H Hnd.
  apply bind_Ok in H as (d & Hd & H).
  destruct (attr_pass_error _ _); [discriminate H |]; injection H as <-.
  pose proof (init_fields_keys _ _ _ Hd) as Hkeys.
  rewrite assign_append; [| exact Hnd |].
  - f_equal; f_equal.
    rewrite (init_fields_eq _ _ _ Hd).
    apply map_ext_in; intros [f dflt] Hin.
    apply field_name_in, str_in_true in Hin.
    rewrite (kwargs_get_kept _ _ _ Hin).
    destruct (dict_get (raw_attrs raw) f); reflexivity.
  - intros k v _ Hk; apply dict_get_not_key; rewrite Hkeys.
    apply str_in_false; destruct (str_in k _); [discriminate Hk | reflexivity].
Qed.

(** ** [transform] on lists *)

Lemma mapM_app {A B} (f : A -> result B) (l1 l2 : list A) :
  mapM f (l1 ++ l2)%list
  = (r1 <- mapM f l1 ;; r2 <- mapM f l2 ;; Ok (r1 ++ r2)%list).
Proof.
  induction l1 as [| x l1 IH]; simpl.
  - destruct (mapM f l2); reflexivity.
  - destruct (f x) as [y | e]; cbn [bind]; [| reflexivity].
    rewrite IH; destruct (mapM f l1) as [r1 | e]; cbn [bind]; [| reflexivity].
    destruct (mapM f l2); reflexivity.
Qed.

(** Transforming a concatenation is transforming its parts, in order. *)
Theorem transform_app (l1 l2 : list RawElement) :
  transform (l1 ++ l2)%list
  = (r1 <- transform l1 ;; r2 <- transform l2 ;; Ok (r1 ++ r2)%list).
Proof. apply mapM_app. Qed.

(** The first node that cannot be transformed aborts the whole list with
    its own exception, whatever follows it. *)
Theorem transform_aborts_on_first_error l1 elem l2 r1 e :
  transform l1 = Ok r1 ->
  transform [elem] = Raise e ->
  transform (l1 ++ elem :: l2)%list = Raise e.
Proof.
  unfold transform; intros H1 He; rewrite mapM_app, H1; cbn [bind].
  change (elem :: l2) with ([elem] ++ l2)%list.
  rewrite mapM_app, He; reflexivity.
Qed.

(** [Element.from_raw] on a class whose fields all have defaults: only
    the attribute pass can fail. *)
Lemma Element_from_raw_total c raw :
  (forall f, ~ In (f, None) (fields c)) ->
  exists d,
    Element_from_raw c raw
    = match attr_pass_error (fun k => negb (str_in k (field_names c)))
              (raw_attrs raw) with
      | Some e => Raise e
      | None => Ok (Obj c d)
      end.
Proof.
  intros Hno; rewrite Element_from_raw_eq.
  destruct (init_fields _ _) as [d | e] eqn:E.
  - eexists; reflexivity.
  - apply init_fields_Raise in E as (_ & f & Hin & _).
    destruct (Hno f Hin).
Qed.

(** A [message] or [quote] node first raises the exception of its first
    attribute that is no field and cannot be assigned; when it has none,
    and for every node whose tag is unknown, the node fails exactly when
    one of its children does, and with the exception of the first child
    that fails. *)
Theorem transform_container_fails ty attrs children e :
  dict_get ELEMENT_TYPE_MAP ty = None ->
  str_in ty ["a"; "link"] = false ->
  dict_get STYLE_TYPE_MAP ty = None ->
  str_in ty ["br"; "newline"] = false ->
  transform [mkRaw ty attrs children] = Raise e <->
  match (if str_in ty ["message"; "quote"]
         then attr_pass_error
                (fun k => negb (str_in k ["id"; "forward"; "content"])) attrs
         else None) with
  | Some e' => e = e'
  | None => transform children = Raise e
  end.
Proof.
  intros HE HL HS HB.
  assert (S : forall r : result Element,
             (y <- r ;; ys <- Ok [] ;; Ok (y :: ys)) = Raise e <-> r = Raise e).
  { intros [y | e']; cbn [bind]; split; congruence. }
  unfold transform at 1; cbn [mapM]; fold (transform children).
  rewrite S, transform_elem_eq; cbn [raw_type raw_children raw_attrs].
  rewrite HE, HL, HS, HB.
  assert (C : forall c,
            (forall f, ~ In (f, None) (fields c)) ->
            field_names c = ["id"; "forward"; "content"] ->
            container c (mkRaw ty attrs children) (transform children) = Raise e
            <-> match attr_pass_error
                        (fun k => negb (str_in k ["id"; "forward"; "content"]))
                        attrs with
                | Some e' => e = e'
                | None => transform children = Raise e
                end).
  { intros c Hno Hn; unfold container.
    destruct (Element_from_raw_total c (mkRaw ty attrs children) Hno) as (d & ->).
    rewrite Hn; cbn [raw_attrs].
    destruct (attr_pass_error _ attrs) as [e' |]; cbn [bind raw_children].
    - split; congruence.
    - destruct children as [| x xs].
      + split; discriminate.
      + destruct (transform (x :: xs)); cbn [bind].
        * rewrite setattr_plain by reflexivity; split; discriminate.
        * split; congruence. }
  unfold str_in at 1; cbn [existsb].
  destruct (ty =? "message"); cbn [orb].
  { apply C; [simpl; intuition discriminate | reflexivity]. }
  destruct (ty =? "quote"); cbn [orb].
  { apply C; [simpl; intuition discriminate | reflexivity]. }
  destruct (transform children) as [kids | e']; cbn [bind];
    [split; discriminate | split; congruence].
Qed.

Lemma style_tag_fields t c :
  dict_get STYLE_TYPE_MAP t = Some c ->
  fields c = [("text", None)] /\ initvars c = []
  /\ dict_get ELEMENT_TYPE_MAP t = None /\ str_in t ["a"; "link"] = false.
Proof.
  intros Hs; split; [| split].
  - apply STYLE_TYPE_MAP_range in Hs; simpl in Hs.
    repeat (destruct Hs as [<- | Hs]; [reflexivity |]); destruct Hs.
  - apply STYLE_TYPE_MAP_range in Hs; simpl in Hs.
    repeat (destruct Hs as [<- | Hs]; [reflexivity |]); destruct Hs.
  - pose proof (dict_get_key _ _ _ Hs) as K; simpl in K.
    repeat (destruct K as [<- | K]; [split; reflexivity |]); destruct K.
Qed.

Lemma transform_elem_style t c attrs children :
  dict_get STYLE_TYPE_MAP t = Some c ->
  transform_elem (mkRaw t attrs children)
  = match children with
    | [] => Raise IndexError
    | child :: _ =>
        match dict_get (raw_attrs child) "text" with
        | None => Raise (KeyError "text")
        | Some text =>
            match attr_pass_error (fun _ => true) attrs with
            | Some e => Raise e
            | None =>
                Ok (Obj c (assign (fun _ => true) attrs [("text", Val text)]))
            end
        end
    end.
Proof.
  intros Hs; destruct (style_tag_fields t c Hs) as (Hf & Hi & HE & HL).
  rewrite transform_elem_eq; cbn [raw_type]; rewrite HE, HL, Hs.
  destruct children as [| child rest]; [reflexivity |].
  destruct (dict_get (raw_attrs child) "text") as [text |] eqn:Htext.
  - apply (Style_from_raw_eq c t attrs child rest text Hf Hi Htext).
  - unfold Style_from_raw, getitem; cbn [raw_children]; rewrite Htext.
    reflexivity.
Qed.

Lemma transform_elem_anchor t attrs children :
  str_in t ["a"; "link"] = true ->
  transform_elem (mkRaw t attrs children)
  = match dict_get attrs "href" with
    | None => Raise (KeyError "href")
    | Some href =>
        display <- match children with
                   | [] => Ok VNone
                   | child :: _ =>
                       match dict_get (raw_attrs child) "text" with
                       | None => Raise (KeyError "text")
                       | Some text => Ok text
                       end
                   end ;;
        match attr_pass_error (fun k => negb (k =? "href")) attrs with
        | Some e => Raise e
        | None =>
            Ok (Obj Link (assign (fun k => negb (k =? "href")) attrs
                            [("url", Val href); ("display", Val display)]))
        end
    end.
Proof.
  intros Ht.
  assert (HE : dict_get ELEMENT_TYPE_MAP t = None).
  { apply str_in_In in Ht; simpl in Ht.
    destruct Ht as [<- | [<- | []]]; reflexivity. }
  rewrite transform_elem_eq; cbn [raw_type]; rewrite HE, Ht.
  destruct (dict_get attrs "href") as [href |] eqn:Hh.
  - rewrite (Link_from_raw_eq t attrs children href Hh).
    destruct children as [| child rest]; [reflexivity |].
    unfold getitem; destruct (dict_get (raw_attrs child) "text"); reflexivity.
  - apply (Link_from_raw_no_href t attrs children Hh).
Qed.

(** A node of the style table without children raises [IndexError], and
    with a first child that has no [text], [KeyError]; otherwise every
    attribute of the node is assigned over an element of the class of
    the table built from the [text] of the first child: the node raises
    the exception of its first attribute that cannot be assigned, and
    yields the element when it has none. *)
Theorem transform_style_node t c attrs children :
  dict_get STYLE_TYPE_MAP t = Some c ->
  transform [mkRaw t attrs children]
  = match children with
    | [] => Raise IndexError
    | child :: _ =>
        match dict_get (raw_attrs child) "text" with
        | None => Raise (KeyError "text")
        | Some text =>
            match attr_pass_error (fun _ => true) attrs with
            | Some e => Raise e
            | None =>
                Ok [Obj c (assign (fun _ => true) attrs [("text", Val text)])]
            end
        end
    end.
Proof.
  intros Hs; unfold transform; cbn [mapM].
  rewrite (transform_elem_style t c attrs children Hs).
  destruct children as [| child rest]; [reflexivity |].
  destruct (dict_get (raw_attrs child) "text"); [| reflexivity].
  destruct (attr_pass_error _ attrs); reflexivity.
Qed.

(** An anchor node ([a] or [link]) without [href] raises [KeyError], and
    so does one whose first child has no [text]; otherwise every
    attribute of the node but [href] is assigned over a [Link] built
    from [href] and from the [text] of the first child ([None] without
    children): the node raises the exception of its first such attribute
    that cannot be assigned, and yields the [Link] when it has none. *)
Theorem transform_anchor_node t attrs children :
  str_in t ["a"; "link"] = true ->
  transform [mkRaw t attrs children]
  = match dict_get attrs "href" with
    | None => Raise (KeyError "href")
    | Some href =>
        match (match children with
               | [] => Some VNone
               | child :: _ => dict_get (raw_attrs child) "text"
               end) with
        | None => Raise (KeyError "text")
        | Some display =>
            match attr_pass_error (fun k => negb (k =? "href")) attrs with
            | Some e => Raise e
            | None =>
                Ok [Obj Link (assign (fun k => negb (k =? "href")) attrs
                                [("url", Val href); ("display", Val display)])]
            end
        end
    end.
Proof.
  intros Ht; unfold transform; cbn [mapM].
  rewrite (transform_elem_anchor t attrs children Ht).
  destruct (dict_get attrs "href"); [| reflexivity].
  destruct children as [| child rest]; cbn [bind].
  - destruct (attr_pass_error _ attrs); reflexivity.
  - destruct (dict_get (raw_attrs child) "text"); cbn [bind]; [| reflexivity].
    destruct (attr_pass_error _ attrs); reflexivity.
Qed.

(** ** The classes of the elements that [transform] builds *)

Lemma RawElement_tree_ind (P : RawElement -> Prop) :
  (forall ty attrs children,
      Forall P children -> P (mkRaw ty attrs children)) ->
  forall r, P r.
Proof.
  intros H; fix IH 1; intros [ty attrs children].
  apply H; induction children as [| x xs IHxs]; constructor;
    [apply IH | exact IHxs].
Qed.

Lemma tree_classes_eq p c d :
  tree_classes p (Obj c d) = p c && held_ok p d.
Proof. reflexivity. Qed.

Lemma held_ok_set p d k x :
  held_ok p d = true ->
  match x with Elems l => forallb (tree_classes p) l | _ => true end = true ->
  held_ok p (dict_set d k x) = true.
Proof.
  unfold held_ok; intros Hd Hx; induction d as [| [k' x'] d IH]; simpl.
  - rewrite Hx; reflexivity.
  - simpl in Hd; apply andb_prop in Hd as [H1 H2].
    destruct (k' =? k); simpl.
    + rewrite Hx, H2; reflexivity.
    + rewrite H1, (IH H2); reflexivity.
Qed.

Lemma held_ok_get p d k x :
  held_ok p d = true -> dict_get d k = Some x ->
  match x with Elems l => forallb (tree_classes p) l | _ => true end = true.
Proof.
  unfold held_ok; induction d as [| [k' x'] d IH]; simpl; [discriminate |].
  intros Hd Hg; apply andb_prop in Hd as [H1 H2].
  destruct (k' =? k); [injection Hg as <-; exact H1 | apply (IH H2 Hg)].
Qed.

Lemma held_ok_kwargs p (attrs : dict value) : held_ok p (as_kwargs attrs) = true.
Proof.
  unfold held_ok, as_kwargs; induction attrs as [| [k v] l IH]; simpl;
    [reflexivity | exact IH].
Qed.

Lemma setattr_held p o k x o' :
  setattr o k x = Ok o' ->
  held_ok p (vars o) = true ->
  match x with Elems l => forallb (tree_classes p) l | _ => true end = true ->
  held_ok p (vars o') = true.
Proof.
  destruct o as [c d]; unfold setattr.
  destruct (k =? "__class__"); [discriminate |].
  destruct (k =? "__dict__").
  { destruct x as [v | l | a]; try discriminate.
    intros [= <-] _ _; apply (held_ok_kwargs p a). }
  destruct (k =? "__weakref__"); [discriminate |].
  intros [= <-]; apply held_ok_set.
Qed.

(** The attribute pass of a [from_raw] stores scalars only. *)
Lemma attr_pass_held p (keep : string -> bool) (attrs : dict value) o o' :
  foldM (fun res '(k, v) => if keep k then setattr res k (Val v) else Ok res)
    attrs o = Ok o' ->
  held_ok p (vars o) = true -> held_ok p (vars o') = true.
Proof.
  intros H Ho.
  apply (foldM_inv (fun x => held_ok p (vars x) = true)) in H;
    [exact H | | exact Ho].
  intros b [k v] b' Hb Hs; destruct (keep k).
  - apply (setattr_held p _ _ _ _ Hs Hb); reflexivity.
  - injection Hs as <-; exact Hb.
Qed.

Lemma fields_defaults p c f w :
  In (f, Some w) (fields c) ->
  match w with Elems l => forallb (tree_classes p) l | _ => true end = true.
Proof.
  destruct c; simpl; intros H;
    repeat (destruct H as [E | H];
            [first [discriminate E | injection E as _ <-; reflexivity] |]);
    destruct H.
Qed.

Lemma init_fields_held p fs kw d :
  (forall f w, In (f, Some w) fs ->
     match w with Elems l => forallb (tree_classes p) l | _ => true end = true) ->
  held_ok p kw = true ->
  init_fields fs kw = Ok d -> held_ok p d = true.
Proof.
  revert d; induction fs as [| [f dflt] fs IH]; simpl; intros d Hsub Hkw H.
  - injection H as <-; reflexivity.
  - apply bind_Ok in H as (v & Hv & H).
    apply bind_Ok in H as (rest & Hrest & H).
    injection H as <-; unfold held_ok; simpl.
    fold (held_ok p rest).
    rewrite (IH rest);
      [| intros f' w' Hin; apply (Hsub f' w'); right; exact Hin
       | exact Hkw | exact Hrest].
    rewrite andb_true_r.
    destruct (dict_get kw f) as [w |] eqn:Hw.
    + injection Hv as <-; apply (held_ok_get p kw f w Hkw Hw).
    + destruct dflt as [w |]; [| discriminate Hv].
      injection Hv as <-; apply (Hsub f w); left; reflexivity.
Qed.

Lemma construct_held p c kw o :
  held_ok p kw = true ->
  construct c kw = Ok o -> held_ok p (vars o) = true.
Proof.
  unfold construct; intros Hkw H.
  destruct (forallb _ kw); [| discriminate H].
  apply bind_Ok in H as (d & Hd & H).
  apply (init_fields_held p) in Hd; [| apply fields_defaults | exact Hkw].
  destruct (initvars c) as [| iv ivs].
  - injection H as <-; exact Hd.
  - unfold post_init in H.
    destruct (dict_get kw "extra") as [[v | held | ex] |].
    + destruct (ftruthy _); [discriminate H | injection H as <-; exact Hd].
    + destruct (ftruthy _); [discriminate H | injection H as <-; exact Hd].
    + apply (foldM_inv (fun x => held_ok p (vars x) = true)) in H;
        [exact H | | exact Hd].
      intros b [k v] b' Hb Hs.
      apply (setattr_held p _ _ _ _ Hs Hb); reflexivity.
    + injection H as <-; exact Hd.
Qed.

Lemma mapM_Forall {A B} (f : A -> result B) (P : B -> Prop) l r :
  Forall (fun x => forall y, f x = Ok y -> P y) l ->
  mapM f l = Ok r -> Forall P r.
Proof.
  intros HF; revert r; induction HF as [| x xs Hx _ IH]; simpl; intros r H.
  - injection H as <-; constructor.
  - apply bind_Ok in H as (y & Hy & H).
    apply bind_Ok in H as (ys & Hys & H).
    injection H as <-; constructor; [apply Hx; exact Hy | apply IH; exact Hys].
Qed.

Lemma from_node_class elem e :
  transform_elem elem = Ok e -> from_node (class_of e) = true.
Proof.
  intros H; pose proof (transform_elem_class _ _ H) as Hc.
  destruct (dict_get ELEMENT_TYPE_MAP _) as [c |] eqn:HE.
  { apply ELEMENT_TYPE_MAP_range in HE; rewrite Hc; simpl in HE.
    repeat (destruct HE as [<- | HE]; [reflexivity |]); destruct HE. }
  destruct (str_in _ ["a"; "link"]); [rewrite Hc; reflexivity |].
  destruct (dict_get STYLE_TYPE_MAP _) as [c |] eqn:HS.
  { apply STYLE_TYPE_MAP_range in HS; rewrite Hc; simpl in HS.
    repeat (destruct HS as [<- | HS]; [reflexivity |]); destruct HS. }
  destruct (str_in _ ["br"; "newline"]); [rewrite Hc; reflexivity |].
  destruct (_ =? "message"); [rewrite Hc; reflexivity |].
  destruct (_ =? "quote"); rewrite Hc; reflexivity.
Qed.

Lemma Element_from_raw_held p c raw o :
  Element_from_raw c raw = Ok o -> held_ok p (vars o) = true.
Proof.
  unfold Element_from_raw; intros H.
  apply bind_Ok in H as (r & Hr & H).
  apply (attr_pass_held p (fun k => negb (str_in k (field_names c)))) in H;
    [exact H |].
  apply (construct_held p) in Hr; [exact Hr | apply held_ok_kwargs].
Qed.

Lemma transform_elem_tree elem :
  forall e, transform_elem elem = Ok e -> tree_classes from_node e = true.
Proof.
  induction elem as [ty attrs children IH] using RawElement_tree_ind.
  intros e H; pose proof (from_node_class _ _ H) as Hc.
  destruct e as [c d]; rewrite tree_classes_eq; simpl in Hc; rewrite Hc.
  change (held_ok from_node (vars (Obj c d)) = true).
  assert (Hkids : forall kids, transform children = Ok kids ->
                               forallb (tree_classes from_node) kids = true).
  { intros kids Hk; apply forallb_forall.
    apply (mapM_Forall _ (fun y => tree_classes from_node y = true)) in Hk;
      [| exact IH].
    rewrite Forall_forall in Hk; exact Hk. }
  assert (Hcont : forall c0,
             container c0 (mkRaw ty attrs children) (transform children)
             = Ok (Obj c d) ->
             held_ok from_node (vars (Obj c d)) = true).
  { intros c0 Hk; unfold container in Hk.
    apply bind_Ok in Hk as (res & Hres & Hk).
    apply (Element_from_raw_held from_node) in Hres.
    cbn [raw_children] in Hk; destruct children as [| x xs].
    - injection Hk as <-; exact Hres.
    - apply bind_Ok in Hk as (content & Hcontent & Hk).
      apply (setattr_held from_node _ _ _ _ Hk Hres).
      apply Hkids; exact Hcontent. }
  rewrite transform_elem_eq in H; cbn [raw_type raw_children raw_attrs] in H.
  destruct (dict_get ELEMENT_TYPE_MAP ty).
  { apply (Element_from_raw_held from_node) in H; exact H. }
  destruct (str_in ty ["a"; "link"]).
  { unfold Link_from_raw in H.
    apply bind_Ok in H as (href & _ & H).
    apply bind_Ok in H as (display & _ & H).
    apply bind_Ok in H as (r & Hr & H).
    apply (attr_pass_held from_node (fun k => negb (k =? "href"))) in H;
      [exact H |].
    apply (construct_held from_node) in Hr; [exact Hr | reflexivity]. }
  destruct (dict_get STYLE_TYPE_MAP ty).
  { unfold Style_from_raw in H; cbn [raw_children raw_attrs] in H.
    destruct children as [| child rest]; [discriminate H |].
    apply bind_Ok in H as (text & _ & H).
    apply bind_Ok in H as (r & Hr & H).
    apply (attr_pass_held from_node (fun _ => true)) in H; [exact H |].
    apply (construct_held from_node) in Hr; [exact Hr | reflexivity]. }
  destruct (str_in ty ["br"; "newline"]).
  { apply (construct_held from_node) in H; [exact H | reflexivity]. }
  destruct (ty =? "message"); [apply (Hcont Message H) |].
  destruct (ty =? "quote"); [apply (Hcont Quote H) |].
  apply bind_Ok in H as (kids & Hk & H).
  apply (construct_held from_node) in H; [exact H |].
  unfold held_ok; simpl; rewrite (Hkids kids Hk); reflexivity.
Qed.

(** No element that [transform] builds, at any depth of the result, is
    an instance of [Raw] or of a base class ([Element], [Resource],
    [Style]). *)
Theorem transform_never_raw (elements : list RawElement) (msg : list Element) :
  transform elements = Ok msg ->
  forallb (tree_classes from_node) msg = true.
Proof.
  intros H; apply forallb_forall.
  apply (mapM_Forall _ (fun y => tree_classes from_node y = true)) in H.
  - rewrite Forall_forall in H; exact H.
  - apply Forall_forall; intros x _ y; apply transform_elem_tree.
Qed.

(** ** What the renderers read *)

Lemma internal_key_neq k f :
  internal_key k = true -> internal_key f = false -> k <> f.
Proof. intros Hk Hf ->; congruence. Qed.

Lemma view_get_internal render d k x f :
  internal_key k = true -> internal_key f = false ->
  view_get (to_view render (dict_set d k x)) f = view_get (to_view render d) f.
Proof.
  intros Hk Hf; unfold view_get; rewrite !to_view_get.
  rewrite (dict_get_set_other d k f x (internal_key_neq k f Hk Hf)).
  reflexivity.
Qed.

Lemma public_internal render d k x :
  internal_key k = true ->
  public (to_view render (dict_set d k x)) = public (to_view render d).
Proof.
  intros Hk; unfold public, to_view.
  induction d as [| [k' x'] d IH]; simpl.
  - rewrite Hk; reflexivity.
  - destruct (k' =? k) eqn:E; simpl.
    + apply String.eqb_eq in E; subst k'; rewrite Hk; reflexivity.
    + rewrite IH; reflexivity.
Qed.

Lemma call_get_type_internal render c d k x :
  internal_key k = true ->
  call_get_type c (to_view render (dict_set d k x))
  = call_get_type c (to_view render d).
Proof.
  intros Hk; unfold call_get_type; rewrite !to_view_get.
  rewrite (dict_get_set_other d k "get_type" x)
    by (apply (internal_key_neq k _ Hk); reflexivity).
  rewrite (dict_get_set_other d k "type" x)
    by (apply (internal_key_neq k _ Hk); reflexivity).
  reflexivity.
Qed.

(** An attribute whose name starts with an underscore never shows in a
    rendering: for every such name that [setattr] stores in the
    instance dictionary (every one but [__class__], [__dict__] and
    [__weakref__]), assigning it to any element, whatever its class and
    its value, succeeds and leaves [str] unchanged. *)
Theorem internal_attribute_never_rendered (escape : string -> string)
    (o : Element) (k : string) (x : fval Element) :
  internal_key k = true ->
  setattr_error k = None ->
  exists o', setattr o k x = Ok o' /\ str escape o' = str escape o.
Proof.
  intros Hk He; destruct o as [c d].
  rewrite (setattr_plain c d k x He); eexists; split; [reflexivity |].
  cbn [str].
  destruct c; cbn [str_method];
    unfold Text_str, Style_str, Link_str, Message_str, Custom_str, Raw_str,
      Element_str;
    rewrite ?(public_internal _ _ _ _ Hk);
    rewrite ?(call_get_type_internal _ _ d k x Hk);
    rewrite ?(view_get_internal _ d k x _ Hk) by reflexivity;
    reflexivity.
Qed.

Lemma Text_str_of escape render d s :
  dict_get d "text" = Some (Val (VStr s)) ->
  Text_str escape (to_view render d) = Ok (escape s).
Proof.
  intros H; unfold Text_str, view_get; rewrite to_view_get, H; reflexivity.
Qed.

Lemma Style_str_of escape render tag d s :
  dict_get d "text" = Some (Val (VStr s)) ->
  Style_str escape tag (to_view render d)
  = Ok ("<" ++ tag ++ ">" ++ escape s ++ "</" ++ tag ++ ">").
Proof.
  intros H; unfold Style_str, view_get; rewrite to_view_get, H; reflexivity.
Qed.

Lemma Link_str_of escape render d u display :
  dict_get d "url" = Some (Val (VStr u)) ->
  dict_get d "display" = Some (Val display) ->
  Link_str escape (to_view render d)
  = match display with
    | VNone => Ok ("<a href=" ++ dq ++ escape u ++ dq ++ "/>")
    | VStr t =>
        if t =? "" then Ok ("<a href=" ++ dq ++ escape u ++ dq ++ "/>")
        else Ok ("<a href=" ++ dq ++ escape u ++ dq ++ ">" ++ escape t ++ "</a>")
    | _ => if truthy display then Raise AttributeError
           else Ok ("<a href=" ++ dq ++ escape u ++ dq ++ "/>")
    end.
Proof.
  intros Hu Hd; unfold Link_str, view_get; rewrite !to_view_get, Hu, Hd.
  cbn [bind ftruthy escape_of].
  destruct display as [| b | z | r | t |].
  - reflexivity.
  - destruct (truthy (VBool b)); reflexivity.
  - destruct (truthy (VInt z)); reflexivity.
  - destruct (truthy (VFloat r)); reflexivity.
  - cbn [truthy]; destruct (t =? ""); reflexivity.
  - reflexivity.
Qed.

Lemma Custom_str_of escape type attrs kids parts :
  mapM (str escape) kids = Ok parts ->
  str escape (Obj Custom [("type", Val (VStr type));
                          ("attrs", Attrs attrs);
                          ("children", Elems kids)])
  = Ok (match kids with
        | [] => "<" ++ type ++ " "
                  ++ join " " (map (fun '(k, v) => _attr escape k v) (public attrs))
                  ++ " />"
        | _ => "<" ++ type ++ " "
                 ++ join " " (map (fun '(k, v) => _attr escape k v) (public attrs))
                 ++ ">" ++ join EmptyString parts ++ "</" ++ type ++ ">"
        end).
Proof.
  intros Hk; cbn [str to_view map str_method].
  unfold Custom_str, view_get, call_get_type;
    cbn [dict_get String.eqb Ascii.eqb Bool.eqb bind py_str].
  destruct kids as [| e es]; [reflexivity |].
  cbn [ftruthy map join_strs].
  change (str escape e :: map (str escape) es)
    with (map (str escape) (e :: es)).
  rewrite mapM_id_map, Hk; reflexivity.
Qed.

(** ** From node to markup *)

(** A [text] node that carries a string renders as that string,
    escaped and without a tag, whatever other attributes and whatever
    children the node has, unless one of its other attributes has a name
    that cannot be assigned: the node then raises the exception of the
    first such attribute. *)
Theorem text_node_render (escape : string -> string) attrs children s :
  dict_get attrs "text" = Some (VStr s) ->
  (l <- transform [mkRaw "text" attrs children] ;; mapM (str escape) l)
  = match attr_pass_error (fun k => negb (str_in k ["text"])) attrs with
    | Some e => Raise e
    | None => Ok [escape s]
    end.
Proof.
  intros Ht; unfold transform; cbn [mapM].
  rewrite transform_elem_eq; cbn [raw_type dict_get ELEMENT_TYPE_MAP].
  cbn [String.eqb Ascii.eqb Bool.eqb].
  rewrite Element_from_raw_eq; cbn [fields init_fields raw_attrs].
  rewrite kwargs_get_kept by reflexivity.
  rewrite Ht; cbn [option_map bind].
  change (field_names Text) with ["text"].
  destruct (attr_pass_error _ attrs); [reflexivity |].
  cbn [bind mapM str str_method].
  rewrite (Text_str_of escape _ _ s); [reflexivity |].
  rewrite assign_other; [reflexivity |].
  intros k v _ Hk E; rewrite E in Hk; discriminate Hk.
Qed.

(** A node of the style table whose first child carries a string, and
    that has no attribute named [text] itself, renders as that string,
    escaped, between the tags of its class: an alias is rendered under
    the main tag of the class, and the other attributes and children of
    the node leave no trace, unless one of the attributes has a name
    that cannot be assigned: the node then raises the exception of the
    first such attribute. *)
Theorem style_node_render t c :
  dict_get STYLE_TYPE_MAP t = Some c ->
  exists tag,
    dict_get STYLE_TYPE_MAP tag = Some c
    /\ forall (escape : string -> string) attrs child rest s,
        dict_get (raw_attrs child) "text" = Some (VStr s) ->
        dict_get attrs "text" = None ->
        (l <- transform [mkRaw t attrs (child :: rest)] ;; mapM (str escape) l)
        = match attr_pass_error (fun _ => true) attrs with
          | Some e => Raise e
          | None => Ok ["<" ++ tag ++ ">" ++ escape s ++ "</" ++ tag ++ ">"]
          end.
Proof.
  intros Hs.
  assert (R : forall tag,
             dict_get STYLE_TYPE_MAP tag = Some c ->
             (forall escape v, str_method escape c v = Style_str escape tag v) ->
             exists tag,
               dict_get STYLE_TYPE_MAP tag = Some c
               /\ forall (escape : string -> string) attrs child rest s,
                   dict_get (raw_attrs child) "text" = Some (VStr s) ->
                   dict_get attrs "text" = None ->
                   (l <- transform [mkRaw t attrs (child :: rest)] ;;
                    mapM (str escape) l)
                   = match attr_pass_error (fun _ => true) attrs with
                     | Some e => Raise e
                     | None =>
                         Ok ["<" ++ tag ++ ">" ++ escape s ++ "</" ++ tag ++ ">"]
                     end).
  { intros tag Htag Hm; exists tag; split; [exact Htag |].
    intros escape attrs child rest s Hc Hn.
    unfold transform; cbn [mapM].
    rewrite (transform_elem_style t c attrs (child :: rest) Hs), Hc.
    destruct (attr_pass_error _ attrs); [reflexivity |].
    cbn [bind mapM str]; rewrite Hm.
    rewrite (Style_str_of escape _ tag _ s); [reflexivity |].
    rewrite assign_other; [reflexivity |].
    intros k v Hin _; apply (dict_get_None_In _ _ Hn k v Hin). }
  pose proof (STYLE_TYPE_MAP_range _ _ Hs) as Hr; simpl in Hr.
  destruct Hr as [<- | [<- | [<- | [<- | [<- | [<- | [<- | [<- | [<- | []]]]]]]]]].
  - apply (R "b"); reflexivity.
  - apply (R "i"); reflexivity.
  - apply (R "u"); reflexivity.
  - apply (R "s"); reflexivity.
  - apply (R "spl"); reflexivity.
  - apply (R "code"); reflexivity.
  - apply (R "sup"); reflexivity.
  - apply (R "sub"); reflexivity.
  - apply (R "p"); reflexivity.
Qed.

(** An anchor node with a string [href], and without attributes named
    [url] or [display], renders as a self-closing anchor on the escaped
    [href] when it has no children or when its first child carries the
    empty string, and otherwise as an anchor around the escaped string
    of its first child, unless one of its attributes has a name that
    cannot be assigned: the node then raises the exception of the first
    such attribute. *)
Theorem anchor_node_render (escape : string -> string) t attrs children u :
  str_in t ["a"; "link"] = true ->
  dict_get attrs "href" = Some (VStr u) ->
  dict_get attrs "url" = None ->
  dict_get attrs "display" = None ->
  (children = [] ->
   (l <- transform [mkRaw t attrs children] ;; mapM (str escape) l)
   = match attr_pass_error (fun k => negb (k =? "href")) attrs with
     | Some e => Raise e
     | None => Ok ["<a href=" ++ dq ++ escape u ++ dq ++ "/>"]
     end)
  /\ (forall child rest s,
         children = child :: rest ->
         dict_get (raw_attrs child) "text" = Some (VStr s) ->
         (l <- transform [mkRaw t attrs children] ;; mapM (str escape) l)
         = match attr_pass_error (fun k => negb (k =? "href")) attrs with
           | Some e => Raise e
           | None =>
               Ok [if s =? ""
                   then "<a href=" ++ dq ++ escape u ++ dq ++ "/>"
                   else "<a href=" ++ dq ++ escape u ++ dq ++ ">" ++ escape s
                          ++ "</a>"]
           end).
Proof.
  intros Ht Hh Hu Hd.
  assert (G : forall display,
             Link_str escape
               (to_view (str escape)
                  (assign (fun k => negb (k =? "href")) attrs
                     [("url", Val (VStr u)); ("display", Val display)]))
             = Link_str escape
                 (to_view (str escape)
                    [("url", Val (VStr u)); ("display", Val display)])).
  { intros display.
    rewrite (Link_str_of escape _ _ u display);
      [rewrite (Link_str_of escape _ _ u display); reflexivity | |];
      (rewrite assign_other; [reflexivity |]);
      intros k v Hin _.
    - apply (dict_get_None_In _ _ Hu k v Hin).
    - apply (dict_get_None_In _ _ Hd k v Hin). }
  split.
  - intros ->; unfold transform; cbn [mapM].
    rewrite (transform_elem_anchor t attrs [] Ht), Hh; cbn [bind].
    destruct (attr_pass_error _ attrs); [reflexivity |].
    cbn [bind mapM str str_method]; rewrite G; reflexivity.
  - intros child rest s -> Hc; unfold transform; cbn [mapM].
    rewrite (transform_elem_anchor t attrs (child :: rest) Ht), Hh, Hc.
    cbn [bind].
    destruct (attr_pass_error _ attrs); [reflexivity |].
    cbn [bind mapM str str_method]; rewrite G.
    rewrite (Link_str_of escape _ _ u (VStr s)) by reflexivity.
    destruct (s =? ""); reflexivity.
Qed.

(** A node whose tag no branch of [transform] names comes back from
    rendering under the same tag, with its public attributes formatted
    in node order, self-closing when it has no children and otherwise
    around the renderings of its transformed children, in order. *)
Theorem unknown_tag_round_trip (escape : string -> string)
    ty attrs children kids parts :
  known_tag ty = false ->
  transform children = Ok kids ->
  mapM (str escape) kids = Ok parts ->
  (l <- transform [mkRaw ty attrs children] ;; mapM (str escape) l)
  = Ok [match children with
        | [] => "<" ++ ty ++ " "
                  ++ join " " (map (fun '(k, v) => _attr escape k v) (public attrs))
                  ++ " />"
        | _ => "<" ++ ty ++ " "
                 ++ join " " (map (fun '(k, v) => _attr escape k v) (public attrs))
                 ++ ">" ++ join EmptyString parts ++ "</" ++ ty ++ ">"
        end].
Proof.
  unfold known_tag; rewrite !orb_false_iff, !dict_mem_false.
  intros (((HE & HL) & HS) & HB) Hk Hp.
  unfold str_in in HB; cbn [existsb] in HB.
  rewrite !orb_false_iff in HB; destruct HB as (Hbr & Hnl & Hm & Hq & _).
  unfold transform at 1; cbn [mapM]; rewrite transform_elem_eq.
  cbn [raw_type raw_children raw_attrs]; rewrite HE, HL, HS.
  unfold str_in; cbn [existsb]; rewrite Hbr, Hnl, Hm, Hq, Hk.
  cbn [orb bind]; change (construct Custom _) with
    (Ok (Obj Custom [("type", Val (VStr ty)); ("attrs", Attrs attrs);
                     ("children", Elems kids)])).
  cbn [bind mapM]; rewrite (Custom_str_of escape ty attrs kids parts Hp).
  cbn [bind]; do 2 f_equal.
  pose proof (mapM_length _ _ _ Hk) as Hlen.
  destruct children, kids; try discriminate Hlen; reflexivity.
Qed.

(** ** Attributes after [Element.from_raw] *)

(** After [Element.from_raw] on a node whose attribute names are
    distinct, the instance is of the class asked for, every attribute of
    the node can be read back from it under its name and with its value,
    and a field for which the node has no attribute holds its default. *)
Theorem Element_from_raw_attributes c raw o :
  Element_from_raw c raw = Ok o ->
  NoDup (map fst (raw_attrs raw)) ->
  class_of o = c
  /\ (forall k v, In (k, v) (raw_attrs raw) -> getattr o k = Ok (Val v))
  /\ (forall f dv, In (f, Some dv) (fields c) ->
                   dict_get (raw_attrs raw) f = None -> getattr o f = Ok dv).
Proof.
  intros H Hnd; split; [exact (Element_from_raw_class _ _ _ H) |]; split.
  - intros k v Hin.
    pose proof (dict_get_In _ _ _ Hnd Hin) as Hg.
    destruct (str_in k (field_names c)) eqn:Hk.
    + apply str_in_true in Hk; apply in_map_iff in Hk as ([f dflt] & <- & Hf).
      pose proof (from_raw_field _ _ _ _ _ H Hf) as V; simpl in V, Hg.
      rewrite Hg in V; exact V.
    + rewrite (from_raw_layout _ _ _ H Hnd); unfold getattr; cbn [vars].
      rewrite dict_get_app, dict_get_not_key.
      * assert (G : forall l : dict value,
                   NoDup (map fst l) -> In (k, v) l ->
                   dict_get (as_kwargs
                               (filter (fun '(k0, _) =>
                                          negb (str_in k0 (field_names c))) l)) k
                   = Some (Val v)).
        { unfold as_kwargs; induction l as [| [k' v'] l IH]; simpl;
            intros Hl Hkv; [destruct Hkv |].
          inversion Hl as [| ? ? Hk' Hl']; subst.
          destruct Hkv as [[= -> ->] | Hkv].
          - rewrite Hk; simpl; rewrite String.eqb_refl; reflexivity.
          - destruct (negb (str_in k' (field_names c))); simpl;
              [| apply IH; assumption].
            destruct (k' =? k) eqn:E; [| apply IH; assumption].
            apply String.eqb_eq in E; subst k'.
            destruct Hk'; apply (in_map fst) in Hkv; exact Hkv. }
        rewrite (G _ Hnd Hin); reflexivity.
      * rewrite map_map; apply str_in_false in Hk; intros Hin'; apply Hk.
        unfold field_names; apply in_map_iff in Hin' as ([f dflt] & <- & Hf).
        apply (in_map fst) in Hf; exact Hf.
  - intros f dv Hf Hn.
    pose proof (from_raw_field _ _ _ _ _ H Hf) as V; rewrite Hn in V.
    destruct V as (dv' & [= <-] & V); exact V.
Qed.

Lemma table_defaults t c f dflt :
  dict_get ELEMENT_TYPE_MAP t = Some c ->
  In (f, dflt) (fields c) -> dflt = None \/ dflt = Some (Val VNone).
Proof.
  intros Ht; apply ELEMENT_TYPE_MAP_range in Ht; simpl in Ht.
  repeat (destruct Ht as [<- | Ht];
          [simpl; intros H;
           repeat (destruct H as [[= <- <-] | H]; [tauto |]); destruct H |]).
  destruct Ht.
Qed.

Lemma table_get_type t c :
  dict_get ELEMENT_TYPE_MAP t = Some c -> get_type c = t.
Proof.
  intros Ht; pose proof (dict_get_key _ _ _ Ht) as K; simpl in K.
  repeat (destruct K as [<- | K]; [injection Ht as <-; reflexivity |]).
  destruct K.
Qed.

Lemma dict_mem_set {V} (d : dict V) k k' x :
  dict_mem (dict_set d k x) k' = dict_mem d k' || (k =? k').
Proof.
  unfold dict_mem; induction d as [| [k0 x0] d IH]; simpl.
  - destruct (k =? k'); reflexivity.
  - destruct (k0 =? k) eqn:E; simpl.
    + apply String.eqb_eq in E; subst k0.
      destruct (k =? k'); [reflexivity |].
      destruct (dict_get d k'); reflexivity.
    + destruct (k0 =? k'); [reflexivity | exact IH].
Qed.

(** Whether a name that the attribute pass keeps is an attribute after
    the pass. *)
Lemma assign_mem keep (attrs : dict value) d k :
  keep k = true ->
  dict_mem (assign keep attrs d) k = dict_mem d k || dict_mem attrs k.
Proof.
  intros Hk; unfold assign; revert d.
  induction attrs as [| [k0 v] l IH]; simpl; intros d.
  - rewrite orb_false_r; reflexivity.
  - rewrite IH; unfold dict_mem at 4; simpl.
    destruct (k0 =? k) eqn:E.
    + apply String.eqb_eq in E; subst k0; rewrite Hk, dict_mem_set.
      rewrite String.eqb_refl, !orb_true_r; reflexivity.
    + destruct (keep k0); [rewrite dict_mem_set, E, orb_false_r |];
        reflexivity.
Qed.

(** After [Element.from_raw], the instance has an attribute named
    [get_type] exactly when the node has one. *)
Lemma from_raw_get_type c raw o :
  Element_from_raw c raw = Ok o ->
  dict_mem (vars o) "get_type" = dict_mem (raw_attrs raw) "get_type".
Proof.
  rewrite Element_from_raw_eq; intros H.
  apply bind_Ok in H as (d & Hd & H).
  destruct (attr_pass_error _ _); [discriminate H |]; injection H as <-.
  cbn [vars]; rewrite assign_mem by (destruct c; reflexivity).
  assert (Hn : dict_mem d "get_type" = false).
  { unfold dict_mem; rewrite dict_get_not_key; [reflexivity |].
    rewrite (init_fields_keys _ _ _ Hd).
    destruct c; simpl; intuition discriminate. }
  rewrite Hn; reflexivity.
Qed.

(** A node of the element table other than [text], with distinct
    attribute names, renders self-closing under its own tag: first the
    fields of the class in declaration order, each with the attribute
    of the node of that name or else [None], then the other attributes
    of the node in node order, all through the attribute formatter and
    without those whose name starts with an underscore; the children of
    the node are dropped.  A node with an attribute named [get_type]
    yields an element that cannot be rendered: [str] raises a
    [TypeError]. *)
Theorem element_node_render (escape : string -> string)
    t c attrs children e :
  dict_get ELEMENT_TYPE_MAP t = Some c ->
  c <> Text ->
  NoDup (map fst attrs) ->
  transform [mkRaw t attrs children] = Ok [e] ->
  str escape e
  = if dict_mem attrs "get_type" then Raise TypeError
    else
      Ok ("<" ++ t ++ " "
            ++ join " "
                 (map (fun '(k, v) => _attr escape k v)
                    (public
                       (map (fun '(f, _) =>
                               (f, match dict_get attrs f with
                                   | Some v => v
                                   | None => VNone
                                   end)) (fields c)
                        ++ filter (fun '(k, _) => negb (str_in k (field_names c)))
                             attrs)%list))
            ++ " />").
Proof.
  intros Ht Hc Hnd H; apply (proj1 (transform_singleton _ _)) in H.
  rewrite transform_elem_eq in H; cbn [raw_type] in H; rewrite Ht in H.
  pose proof (from_raw_get_type _ _ _ H) as Hg; cbn [raw_attrs] in Hg.
  rewrite <- Hg; clear Hg.
  rewrite (from_raw_layout _ _ _ H Hnd); cbn [raw_attrs vars].
  assert (E : map (fun '(f, dflt) =>
                     (f, match dict_get attrs f, dflt with
                         | Some v, _ => Val v
                         | None, Some dv => dv
                         | None, None => Val VNone
                         end)) (fields c)
              = as_kwargs
                  (map (fun '(f, _) =>
                          (f, match dict_get attrs f with
                              | Some v => v
                              | None => VNone
                              end)) (fields c))).
  { unfold as_kwargs; rewrite map_map; apply map_ext_in; intros [f dflt] Hin.
    destruct (table_defaults t c f dflt Ht Hin) as [-> | ->];
      destruct (dict_get attrs f); reflexivity. }
  rewrite E; unfold as_kwargs at 1 2 3 4; rewrite <- !map_app.
  fold (as_kwargs
          (map (fun '(f, _) =>
                  (f, match dict_get attrs f with
                      | Some v => v
                      | None => VNone
                      end)) (fields c)
           ++ filter (fun '(k, _) => negb (str_in k (field_names c))) attrs)%list).
  rewrite <- (table_get_type t c Ht).
  assert (M : forall v, str_method escape c v = Element_str escape c v).
  { apply ELEMENT_TYPE_MAP_range in Ht; simpl in Ht.
    destruct Ht as [<- | Ht]; [destruct Hc; reflexivity |].
    repeat (destruct Ht as [<- | Ht]; [reflexivity |]); destruct Ht. }
  assert (Hcu : c <> Custom).
  { apply ELEMENT_TYPE_MAP_range in Ht; simpl in Ht; intros ->.
    intuition discriminate. }
  cbn [str]; rewrite M; unfold Element_str.
  rewrite default_attr_items; cbn [bind].
  rewrite (call_get_type_view _ c _ Hcu).
  destruct (dict_mem _ "get_type"); reflexivity.
Qed.

(** The call [get_type()] on an element built from a node by the
    element table, or as a [message] or a [quote], returns the tag of
    the node, so that the element renders under the tag it was read
    from; when the node has an attribute named [get_type], the
    attribute hides the method and the call raises a [TypeError]. *)
Theorem transform_keeps_tag elem e :
  transform [elem] = Ok [e] ->
  dict_mem ELEMENT_TYPE_MAP (raw_type elem) = true
  \/ raw_type elem = "message" \/ raw_type elem = "quote" ->
  call_get_type (class_of e) (vars e)
  = if dict_mem (raw_attrs elem) "get_type" then Raise TypeError
    else Ok (raw_type elem).
Proof.
  intros H Ht; apply (proj1 (transform_singleton _ _)) in H.
  pose proof (transform_elem_class _ _ H) as Hc.
  assert (V : forall c (d : dict (fval Element)), c <> Custom ->
             call_get_type c d
             = if dict_mem d "get_type" then Raise TypeError
               else Ok (get_type c)).
  { intros c d Hcu; unfold call_get_type, dict_mem.
    destruct (dict_get d "get_type"); [reflexivity |].
    destruct c; try reflexivity; congruence. }
  assert (Hcont : forall c,
             container c elem (transform (raw_children elem)) = Ok e ->
             dict_mem (vars e) "get_type" = dict_mem (raw_attrs elem) "get_type").
  { intros c Hk; unfold container in Hk.
    apply bind_Ok in Hk as (res & Hres & Hk).
    apply from_raw_get_type in Hres.
    destruct (raw_children elem); [injection Hk as <-; exact Hres |].
    apply bind_Ok in Hk as (content & _ & Hk).
    destruct res as [c' d]; rewrite setattr_plain in Hk by reflexivity.
    injection Hk as <-; cbn [vars] in *.
    rewrite dict_mem_set, Hres, orb_false_r; reflexivity. }
  rewrite transform_elem_eq in H.
  destruct Ht as [Ht | Ht].
  - unfold dict_mem in Ht.
    destruct (dict_get ELEMENT_TYPE_MAP (raw_type elem)) as [c |] eqn:E;
      [| discriminate Ht].
    rewrite Hc, V, (from_raw_get_type _ _ _ H), (table_get_type _ _ E);
      [reflexivity |].
    apply ELEMENT_TYPE_MAP_range in E; simpl in E; intros ->.
    intuition discriminate.
  - destruct Ht as [Ht | Ht]; rewrite Ht in *; cbn in H, Hc; rewrite Hc.
    + rewrite V, (Hcont Message H) by discriminate; reflexivity.
    + rewrite V, (Hcont Quote H) by discriminate; reflexivity.
Qed.

(** ** [Resource.__post_init__] *)

Lemma post_init_fold (ex : dict value) c d :
  foldM
    (fun self '(k, v) =>
       setattr self k (Val (match v with VEllipsis => VBool true | _ => v end)))
    ex (Obj c d)
  = match attr_pass_error (fun _ => true) ex with
    | Some e => Raise e
    | None =>
        Ok (Obj c (assign (fun _ => true)
                     (map (fun '(k, v) => (k, flag v)) ex) d))
    end.
Proof.
  unfold assign; revert d; induction ex as [| [k v] l IH];
    cbn [foldM attr_pass_error fold_left map]; intros d.
  - reflexivity.
  - rewrite setattr_Val; destruct (setattr_error k); cbn [bind];
      [reflexivity | apply IH].
Qed.

(** Constructing a resource with an [extra] mapping whose names are
    distinct and are no field names appends its entries to the fields
    as attributes, in order, the placeholder [...] stored as [True];
    when a name of the mapping cannot be assigned, the constructor
    raises the exception of the first such name. *)
Theorem resource_extra_attributes rc src (ex : dict value) :
  NoDup (map fst ex) ->
  (forall k, In k (map fst ex) -> ~ In k (field_names (cls_of_resource rc))) ->
  construct (cls_of_resource rc) [("src", Val (VStr src)); ("extra", Attrs ex)]
  = match attr_pass_error (fun _ => true) ex with
    | Some e => Raise e
    | None =>
        Ok (Obj (cls_of_resource rc)
              (vars (resource_obj rc src None None)
               ++ as_kwargs (map (fun '(k, v) => (k, flag v)) ex))%list)
    end.
Proof.
  intros Hnd Hnew.
  assert (E : construct (cls_of_resource rc)
                [("src", Val (VStr src)); ("extra", Attrs ex)]
              = post_init (resource_obj rc src None None) (Some (Attrs ex))).
  { destruct rc; reflexivity. }
  rewrite E; unfold post_init, resource_obj.
  rewrite post_init_fold.
  destruct (attr_pass_error _ ex); [reflexivity |].
  rewrite assign_append.
  - assert (F : forall l : dict value,
               filter (fun '(_, _) => true) l = l).
    { induction l as [| [k v] l IH]; simpl; [| rewrite IH]; reflexivity. }
    rewrite F; reflexivity.
  - rewrite map_map.
    assert (M : map (fun x : string * value => fst (let '(k, v) := x in (k, flag v))) ex
                = map fst ex).
    { apply map_ext; intros [k v]; reflexivity. }
    rewrite M; exact Hnd.
  - intros k v Hin _; apply dict_get_not_key.
    apply in_map_iff in Hin as ([k' v'] & [= <- <-] & Hin).
    apply (in_map fst) in Hin; specialize (Hnew k' Hin).
    intros Hk; apply Hnew.
    destruct rc; simpl in Hk |- *; exact Hk.
Qed.

(** ** Rendering what [transform] built from string attributes *)








Lemma getattr_get o f x : getattr o f = Ok x -> dict_get (vars o) f = Some x.
Proof.
  unfold getattr; destruct (dict_get (vars o) f); congruence.
Qed.





(** ** A [message] or [quote] node, from node to markup *)

Lemma Message_str_shadowed escape c render d vi vf :
  c <> Custom ->
  dict_mem d "get_type" = true ->
  dict_get d "id" = Some (Val vi) -> (vi = VNone \/ exists s, vi = VStr s) ->
  dict_get d "forward" = Some (Val vf) ->
  Message_str escape c (to_view render d) = Raise TypeError.
Proof.
  intros Hcu Hg Hi Hvi Hf; unfold Message_str, view_get.
  rewrite (call_get_type_view render c d Hcu), Hg.
  rewrite !to_view_get, Hi, Hf; cbn [bind ftruthy].
  destruct Hvi as [-> | (s & ->)]; cbn [truthy]; [reflexivity |].
  destruct (negb (s =? "")); reflexivity.
Qed.

Lemma Message_str_of escape c render d vi vf content :
  c <> Custom ->
  dict_mem d "get_type" = false ->
  dict_get d "id" = Some (Val vi) -> (vi = VNone \/ exists s, vi = VStr s) ->
  dict_get d "forward" = Some (Val vf) ->
  dict_get d "content" = Some content ->
  Message_str escape c (to_view render d)
  = let attr :=
      join " "
        (app (match vi with
              | VStr i => if i =? "" then [] else ["id=" ++ dq ++ escape i ++ dq]
              | _ => []
              end)
             (if truthy vf then ["forward"] else [])) in
    match content with
    | Val VNone | Elems [] => Ok ("<" ++ get_type c ++ " " ++ attr ++ " />")
    | Elems l =>
        body <- mapM render l ;;
        Ok ("<" ++ get_type c ++ " " ++ attr ++ ">" ++ join EmptyString body
              ++ "</" ++ get_type c ++ ">")
    | x =>
        if negb (ftruthy x) then Ok ("<" ++ get_type c ++ " " ++ attr ++ " />")
        else
          body <- join_strs
                    (match x with
                     | Val v => Val v
                     | Elems l => Elems (map render l)
                     | Attrs a => Attrs a
                     end) ;;
          Ok ("<" ++ get_type c ++ " " ++ attr ++ ">" ++ body
                ++ "</" ++ get_type c ++ ">")
    end.
Proof.
  intros Hcu Hg Hi Hvi Hf Hc; unfold Message_str, view_get.
  rewrite (call_get_type_view render c d Hcu), Hg.
  rewrite !to_view_get, Hi, Hf, Hc; cbn [bind ftruthy].
  assert (A : (if truthy vi
               then i <- escape_of escape (Val vi) ;; Ok ["id=" ++ dq ++ i ++ dq]
               else Ok [])
              = Ok (match vi with
                    | VStr i => if i =? "" then []
                                else ["id=" ++ dq ++ escape i ++ dq]
                    | _ => []
                    end)).
  { destruct Hvi as [-> | (s & ->)]; cbn [truthy]; [reflexivity |].
    destruct (s =? ""); reflexivity. }
  rewrite A; cbn [bind]; cbv zeta.
  destruct content as [v | l | a]; cbn [bind].
  - destruct v; try reflexivity.
  - destruct l as [| e es]; [reflexivity |].
    cbn [map negb join_strs].
    change (render e :: map render es) with (map render (e :: es)).
    rewrite mapM_id_map; destruct (mapM render (e :: es)); reflexivity.
  - reflexivity.
Qed.

(** A [message] or [quote] node whose [id], if any, is a string and that
    has no attribute named [content] renders under its own tag, with the
    quoted, escaped [id] when it is not empty, then the bare word
    [forward] when the node has a truthy attribute of that name, and
    with no other attribute of the node; it is self-closing without
    children and otherwise wraps the renderings of its transformed
    children, in order.  Two nodes yield no markup: one with an
    attribute, other than the three fields, whose name cannot be
    assigned, which raises the exception of the first such attribute
    when it is transformed, and one with an attribute named [get_type],
    whose element raises a [TypeError] when it is rendered. *)
Theorem message_node_render (escape : string -> string)
    t attrs children kids parts :
  t = "message" \/ t = "quote" ->
  dict_get attrs "id" = None \/ (exists i, dict_get attrs "id" = Some (VStr i)) ->
  dict_get attrs "content" = None ->
  transform children = Ok kids ->
  mapM (str escape) kids = Ok parts ->
  (l <- transform [mkRaw t attrs children] ;; mapM (str escape) l)
  = match attr_pass_error
            (fun k => negb (str_in k ["id"; "forward"; "content"])) attrs with
    | Some e => Raise e
    | None =>
        if dict_mem attrs "get_type" then Raise TypeError
        else
          Ok ["<" ++ t ++ " "
                ++ join " "
                     (app (match dict_get attrs "id" with
                           | Some (VStr i) =>
                               if i =? "" then []
                               else ["id=" ++ dq ++ escape i ++ dq]
                           | _ => []
                           end)
                          (match dict_get attrs "forward" with
                           | Some v => if truthy v then ["forward"] else []
                           | None => []
                           end))
                ++ match children with
                   | [] => " />"
                   | _ => ">" ++ join EmptyString parts ++ "</" ++ t ++ ">"
                   end]
    end.
Proof.
  intros Ht Hid Hcontent Hk Hp.
  assert (D : exists c,
             (c = Message \/ c = Quote) /\ get_type c = t
             /\ transform_elem (mkRaw t attrs children)
                = container c (mkRaw t attrs children) (transform children)).
  { destruct Ht as [-> | ->].
    - exists Message; split; [left; reflexivity | split; [reflexivity |]].
      rewrite transform_elem_eq; reflexivity.
    - exists Quote; split; [right; reflexivity | split; [reflexivity |]].
      rewrite transform_elem_eq; reflexivity. }
  destruct D as (c & Hc & Hty & D).
  assert (Hfields : fields c = [("id", Some (Val VNone));
                                ("forward", Some (Val VNone));
                                ("content", Some (Val VNone))])
    by (destruct Hc as [-> | ->]; reflexivity).
  assert (Hnames : field_names c = ["id"; "forward"; "content"])
    by (destruct Hc as [-> | ->]; reflexivity).
  assert (Hcu : c <> Custom) by (destruct Hc as [-> | ->]; discriminate).
  assert (M : forall d, str escape (Obj c d)
                        = Message_str escape c (to_view (str escape) d))
    by (destruct Hc as [-> | ->]; reflexivity).
  destruct (Element_from_raw_total c (mkRaw t attrs children)) as (d & Hres).
  { rewrite Hfields; simpl; intuition discriminate. }
  rewrite Hnames in Hres; cbn [raw_attrs] in Hres.
  unfold transform at 1; cbn [mapM]; rewrite D; unfold container.
  rewrite Hres; cbn [raw_children].
  destruct (attr_pass_error _ attrs); [reflexivity |].
  pose proof (from_raw_get_type _ _ _ Hres) as Hgt; cbn [raw_attrs vars] in Hgt.
  assert (G : forall f, In (f, Some (Val VNone)) (fields c) ->
              dict_get d f
              = Some (Val (match dict_get attrs f with
                           | Some v => v
                           | None => VNone
                           end))).
  { intros f Hf; pose proof (from_raw_field _ _ _ _ _ Hres Hf) as V.
    cbn [raw_attrs] in V; destruct (dict_get attrs f) as [v |].
    - apply getattr_get in V; exact V.
    - destruct V as (dv & [= <-] & V); apply getattr_get in V; exact V. }
  rewrite Hfields in G.
  pose proof (G "id" (or_introl eq_refl)) as Gi.
  pose proof (G "forward" (or_intror (or_introl eq_refl))) as Gf.
  pose proof (G "content" (or_intror (or_intror (or_introl eq_refl)))) as Gc.
  rewrite Hcontent in Gc.
  assert (Hvi : (match dict_get attrs "id" with Some v => v | None => VNone end)
                = VNone
                \/ exists s, (match dict_get attrs "id" with
                              | Some v => v
                              | None => VNone
                              end) = VStr s).
  { destruct Hid as [-> | (i & ->)]; [left | right; exists i]; reflexivity. }
  assert (A : join " "
                (app (match (match dict_get attrs "id" with
                             | Some v => v
                             | None => VNone
                             end) with
                      | VStr i => if i =? "" then []
                                  else ["id=" ++ dq ++ escape i ++ dq]
                      | _ => []
                      end)
                     (if truthy (match dict_get attrs "forward" with
                                 | Some v => v
                                 | None => VNone
                                 end)
                      then ["forward"] else []))
              = join " "
                  (app (match dict_get attrs "id" with
                        | Some (VStr i) =>
                            if i =? "" then []
                            else ["id=" ++ dq ++ escape i ++ dq]
                        | _ => []
                        end)
                       (match dict_get attrs "forward" with
                        | Some v => if truthy v then ["forward"] else []
                        | None => []
                        end))).
  { destruct (dict_get attrs "id") as [[] |];
      destruct (dict_get attrs "forward"); reflexivity. }
  destruct (dict_mem attrs "get_type") eqn:Hg.
  - destruct children as [| x xs].
    + cbn [bind mapM]; rewrite M.
      rewrite (Message_str_shadowed escape c _ d _ _ Hcu Hgt Gi Hvi Gf).
      reflexivity.
    + rewrite Hk; cbn [bind]; rewrite setattr_plain by reflexivity.
      cbn [bind mapM]; rewrite M.
      rewrite (Message_str_shadowed escape c _ _
                 (match dict_get attrs "id" with Some v => v | None => VNone end)
                 (match dict_get attrs "forward" with
                  | Some v => v
                  | None => VNone
                  end));
        [reflexivity
        | exact Hcu
        | rewrite dict_mem_set, Hgt; reflexivity
        | rewrite dict_get_set_other by discriminate; exact Gi
        | exact Hvi
        | rewrite dict_get_set_other by discriminate; exact Gf].
  - destruct children as [| x xs].
    + cbn [bind mapM]; rewrite M.
      rewrite (Message_str_of escape c _ d _ _ (Val VNone) Hcu Hgt Gi Hvi Gf Gc).
      cbv zeta; rewrite A, Hty; reflexivity.
    + rewrite Hk; cbn [bind]; rewrite setattr_plain by reflexivity.
      cbn [bind mapM]; rewrite M.
      pose proof (mapM_length _ _ _ Hk) as Hlen.
      destruct kids as [| y ys]; [discriminate Hlen |].
      rewrite (Message_str_of escape c _ _
                 (match dict_get attrs "id" with Some v => v | None => VNone end)
                 (match dict_get attrs "forward" with
                  | Some v => v
                  | None => VNone
                  end)
                 (Elems (y :: ys)));
        [| exact Hcu
         | rewrite dict_mem_set, Hgt; reflexivity
         | rewrite dict_get_set_other by discriminate; exact Gi
         | exact Hvi
         | rewrite dict_get_set_other by discriminate; exact Gf
         | apply dict_get_set_same].
      cbv zeta; rewrite Hp, A, Hty; cbn [bind].
      reflexivity.
Qed.

(** ** Concrete runs of the further properties *)

Ltac distinct_names := repeat (constructor; [simpl; intuition discriminate |]);
                       constructor.

Lemma Element_from_raw_attributes_witness :
  getattr (Obj At [("id", Val (VStr "1")); ("name", Val VNone);
                   ("role", Val VNone); ("type", Val VNone);
                   ("pinned", Val (VBool true))]) "pinned"
  = Ok (Val (VBool true)).
Proof.
  refine (proj1 (proj2 (Element_from_raw_attributes At
                          (mkRaw "at" [("id", VStr "1"); ("pinned", VBool true)] [])
                          _ eq_refl _)) "pinned" (VBool true) _).
  - simpl; distinct_names.
  - simpl; tauto.
Defined.

Lemma Element_from_raw_fails_witness :
  Element_from_raw Sharp (mkRaw "sharp" [("name", VStr "general")] [])
  = Raise TypeError
  /\ Element_from_raw Sharp
       (mkRaw "sharp" [("id", VStr "1"); ("__weakref__", VStr "w")] [])
     = Raise AttributeError.
Proof.
  split.
  - apply (proj2 (Element_from_raw_fails Sharp
                    (mkRaw "sharp" [("name", VStr "general")] []) TypeError)).
    left; split; [reflexivity |].
    exists "id"; split; [left; reflexivity | reflexivity].
  - apply (proj2 (Element_from_raw_fails Sharp
                    (mkRaw "sharp" [("id", VStr "1"); ("__weakref__", VStr "w")] [])
                    AttributeError)).
    right; split; [| reflexivity].
    intros f [[= <-] | [[=] | []]]; discriminate.
Defined.

Lemma element_node_render_witness :
  str escape_markup
    (Obj At [("id", Val (VStr "1")); ("name", Val VNone); ("role", Val VNone);
             ("type", Val VNone); ("_seen", Val (VInt 1));
             ("pinned", Val (VBool true))])
  = Ok ("<at id=" ++ dq ++ "1" ++ dq ++ " name=" ++ dq ++ "None" ++ dq
          ++ " role=" ++ dq ++ "None" ++ dq ++ " type=" ++ dq ++ "None" ++ dq
          ++ " pinned />").
Proof.
  refine (element_node_render escape_markup "at" At
            [("id", VStr "1"); ("_seen", VInt 1); ("pinned", VBool true)]
            [mkRaw "text" [("text", VStr "dropped")] []] _
            eq_refl _ _ eq_refl).
  - discriminate.
  - simpl; distinct_names.
Defined.

Lemma transform_aborts_on_first_error_witness :
  transform [mkRaw "text" [("text", VStr "hi")] [];
             mkRaw "b" [] [];
             mkRaw "a" [] []]
  = Raise IndexError.
Proof.
  exact (transform_aborts_on_first_error
           [mkRaw "text" [("text", VStr "hi")] []] (mkRaw "b" [] [])
           [mkRaw "a" [] []] _ IndexError eq_refl eq_refl).
Defined.

Lemma transform_container_fails_witness :
  transform [mkRaw "card" [] [mkRaw "text" [("text", VStr "hi")] [];
                              mkRaw "a" [] []]]
  = Raise (KeyError "href")
  /\ transform [mkRaw "message" [("id", VStr "1"); ("__dict__", VStr "d")]
                  [mkRaw "a" [] []]]
     = Raise TypeError.
Proof.
  split.
  - exact (proj2 (transform_container_fails "card" []
                    [mkRaw "text" [("text", VStr "hi")] []; mkRaw "a" [] []]
                    (KeyError "href") eq_refl eq_refl eq_refl eq_refl) eq_refl).
  - exact (proj2 (transform_container_fails "message"
                    [("id", VStr "1"); ("__dict__", VStr "d")]
                    [mkRaw "a" [] []]
                    TypeError eq_refl eq_refl eq_refl eq_refl) eq_refl).
Defined.

Lemma transform_style_node_witness :
  transform [mkRaw "em" [("class", VStr "k")] []] = Raise IndexError
  /\ transform [mkRaw "em" [("class", VStr "k"); ("__class__", VStr "c")]
                  [mkRaw "text" [("text", VStr "hi")] []]]
     = Raise TypeError
  /\ transform [mkRaw "em" [("class", VStr "k")]
                  [mkRaw "text" [("text", VStr "hi")] []]]
     = Ok [Obj Italic [("text", Val (VStr "hi")); ("class", Val (VStr "k"))]].
Proof.
  split; [| split].
  - exact (transform_style_node "em" Italic [("class", VStr "k")] [] eq_refl).
  - exact (transform_style_node "em" Italic
             [("class", VStr "k"); ("__class__", VStr "c")]
             [mkRaw "text" [("text", VStr "hi")] []] eq_refl).
  - exact (transform_style_node "em" Italic [("class", VStr "k")]
             [mkRaw "text" [("text", VStr "hi")] []] eq_refl).
Defined.

Lemma transform_anchor_node_witness :
  transform [mkRaw "link" [("title", VStr "t")]
               [mkRaw "text" [("text", VStr "go")] []]]
  = Raise (KeyError "href")
  /\ transform [mkRaw "a" [("href", VStr "u"); ("__weakref__", VStr "w")] []]
     = Raise AttributeError
  /\ transform [mkRaw "a" [("href", VStr "u"); ("title", VStr "t")]
                  [mkRaw "text" [("text", VStr "go")] []]]
     = Ok [Obj Link [("url", Val (VStr "u")); ("display", Val (VStr "go"));
                     ("title", Val (VStr "t"))]].
Proof.
  split; [| split].
  - exact (transform_anchor_node "link" [("title", VStr "t")]
             [mkRaw "text" [("text", VStr "go")] []] eq_refl).
  - exact (transform_anchor_node "a"
             [("href", VStr "u"); ("__weakref__", VStr "w")] [] eq_refl).
  - exact (transform_anchor_node "a" [("href", VStr "u"); ("title", VStr "t")]
             [mkRaw "text" [("text", VStr "go")] []] eq_refl).
Defined.

Lemma transform_never_raw_witness :
  forallb (tree_classes from_node)
    [Obj Message
       [("id", Val VNone); ("forward", Val VNone);
        ("content",
         Elems [Obj Custom [("type", Val (VStr "raw")); ("attrs", Attrs []);
                            ("children",
                             Elems [Obj Text [("text", Val (VStr "<b>"))]])]])]]
  = true.
Proof.
  exact (transform_never_raw
           [mkRaw "message" []
              [mkRaw "raw" [] [mkRaw "text" [("text", VStr "<b>")] []]]]
           _ eq_refl).
Defined.

Lemma internal_attribute_never_rendered_witness :
  exists o',
    setattr (Obj Sharp [("id", Val (VStr "1")); ("name", Val VNone)])
      "_cache" (Val (VInt 7)) = Ok o'
    /\ str escape_markup o'
       = str escape_markup
           (Obj Sharp [("id", Val (VStr "1")); ("name", Val VNone)]).
Proof.
  exact (internal_attribute_never_rendered escape_markup
           (Obj Sharp [("id", Val (VStr "1")); ("name", Val VNone)])
           "_cache" (Val (VInt 7)) eq_refl eq_refl).
Defined.

Lemma text_node_render_witness :
  (l <- transform [mkRaw "text" [("text", VStr "a<b"); ("lang", VStr "en")]
                     [mkRaw "b" [] []]] ;;
   mapM (str escape_markup) l)
  = Ok ["a&lt;b"].
Proof.
  exact (text_node_render escape_markup
           [("text", VStr "a<b"); ("lang", VStr "en")] [mkRaw "b" [] []]
           "a<b" eq_refl).
Defined.

Lemma style_node_render_witness :
  exists tag,
    dict_get STYLE_TYPE_MAP tag = Some Bold
    /\ (l <- transform [mkRaw "strong" [("class", VStr "k")]
                          [mkRaw "text" [("text", VStr "hi")] []]] ;;
        mapM (str escape_markup) l)
       = Ok ["<" ++ tag ++ ">" ++ "hi" ++ "</" ++ tag ++ ">"].
Proof.
  destruct (style_node_render "strong" Bold eq_refl) as (tag & Htag & H).
  exists tag; split; [exact Htag |].
  exact (H escape_markup [("class", VStr "k")]
           (mkRaw "text" [("text", VStr "hi")] []) [] "hi" eq_refl eq_refl).
Defined.

Lemma anchor_node_render_witness :
  (l <- transform [mkRaw "link" [("href", VStr "https://x"); ("title", VStr "t")]
                     [mkRaw "text" [("text", VStr "go")] []]] ;;
   mapM (str escape_markup) l)
  = Ok ["<a href=" ++ dq ++ "https://x" ++ dq ++ ">go</a>"].
Proof.
  exact (proj2 (anchor_node_render escape_markup "link"
                  [("href", VStr "https://x"); ("title", VStr "t")]
                  [mkRaw "text" [("text", VStr "go")] []] "https://x"
                  eq_refl eq_refl eq_refl eq_refl)
           (mkRaw "text" [("text", VStr "go")] []) [] "go" eq_refl eq_refl).
Defined.

Lemma unknown_tag_round_trip_witness :
  (l <- transform [mkRaw "card" [("a", VInt 1); ("open", VBool true)]
                     [mkRaw "text" [("text", VStr "hi")] []]] ;;
   mapM (str escape_markup) l)
  = Ok ["<card a=1 open>hi</card>"].
Proof.
  exact (unknown_tag_round_trip escape_markup "card"
           [("a", VInt 1); ("open", VBool true)]
           [mkRaw "text" [("text", VStr "hi")] []]
           [Obj Text [("text", Val (VStr "hi"))]] ["hi"]
           eq_refl eq_refl eq_refl).
Defined.

Lemma transform_keeps_tag_witness :
  @call_get_type Element Image
    [("src", Val (VStr "u")); ("cache", Val VNone); ("timeout", Val VNone);
     ("width", Val VNone); ("height", Val VNone)]
  = Ok "img"
  /\ @call_get_type Element Quote
       [("id", Val VNone); ("forward", Val VNone); ("content", Val VNone);
        ("get_type", Val (VStr "x"))]
     = Raise TypeError.
Proof.
  split.
  - exact (transform_keeps_tag (mkRaw "img" [("src", VStr "u")] [])
             (Obj Image [("src", Val (VStr "u")); ("cache", Val VNone);
                         ("timeout", Val VNone); ("width", Val VNone);
                         ("height", Val VNone)])
             eq_refl (or_introl eq_refl)).
  - exact (transform_keeps_tag (mkRaw "quote" [("get_type", VStr "x")] [])
             (Obj Quote [("id", Val VNone); ("forward", Val VNone);
                         ("content", Val VNone); ("get_type", Val (VStr "x"))])
             eq_refl (or_intror (or_intror eq_refl))).
Defined.

Lemma resource_extra_attributes_witness :
  construct Image [("src", Val (VStr "u"));
                   ("extra", Attrs [("spoiler", VEllipsis); ("title", VStr "t")])]
  = Ok (Obj Image [("src", Val (VStr "u")); ("cache", Val VNone);
                   ("timeout", Val VNone); ("width", Val VNone);
                   ("height", Val VNone); ("spoiler", Val (VBool true));
                   ("title", Val (VStr "t"))]).
Proof.
  refine (resource_extra_attributes RImage "u"
            [("spoiler", VEllipsis); ("title", VStr "t")] _ _).
  - simpl; distinct_names.
  - simpl; intros k [<- | [<- | []]]; intuition discriminate.
Defined.


Lemma message_node_render_witness :
  (l <- transform [mkRaw "quote"
                     [("id", VStr "7"); ("forward", VStr "false");
                      ("lang", VStr "en")]
                     [mkRaw "text" [("text", VStr "hi")] []]] ;;
   mapM (str escape_markup) l)
  = Ok ["<quote id=" ++ dq ++ "7" ++ dq ++ " forward>hi</quote>"].
Proof.
  refine (message_node_render escape_markup "quote"
            [("id", VStr "7"); ("forward", VStr "false"); ("lang", VStr "en")]
            [mkRaw "text" [("text", VStr "hi")] []]
            [Obj Text [("text", Val (VStr "hi"))]] ["hi"]
            (or_intror eq_refl) _ eq_refl eq_refl eq_refl).
  right; exists "7"; reflexivity.
Defined.
